(** * Scoring and optimisation engine of the IERS platform

    A shallow embedding of the scoring algorithms of
    [docs/modules/05_SCORING_MODULE.md] and of the constraint, tie-breaking
    and multi-objective routines of the optimisation module document
    (Module 6), followed by the properties the specification states about
    them.

    Conventions of the embedding.
    - A JavaScript [number] is an exact rational ([Q]); [===] on numbers is
      [Qeq_bool], [Math.min]/[Math.max] are [Qmin]/[Qmax].  Integer-valued
      table entries ([levelMap]), seat counts and dates (milliseconds) are
      [Z] and are injected where they meet a division.
    - A string enum is an inductive type; identifiers are strings.
    - [for ... of] loops with an early [return] are structural recursions
      over the list, the early exit being an explicit [None]/[false].
    - Objects are records; each lives in a module of its own so that the
      fields keep the names of the source. *)

From Stdlib Require Import String.
From Stdlib Require Import List Bool ZArith QArith Qminmax Qabs Lqa Lia.
From Stdlib Require Import Permutation Sorted.
Import ListNotations.

Local Open Scope Q_scope.

(** ** Data model *)

(** [enum SkillLevel { LOW = 'LOW', MEDIUM = 'MEDIUM', HIGH = 'HIGH',
    EXPERT = 'EXPERT' }] *)
Inductive SkillLevel : Type := LOW | MEDIUM | HIGH | EXPERT.

(** [type: enum (TRAINING, CERTIFICATION, PROJECT, MISSION, AUDIT)] *)
Inductive ActivityType : Type :=
  TRAINING | CERTIFICATION | PROJECT | MISSION | AUDIT.

(** The run-time value of a level is its name. *)
Definition levelName (l : SkillLevel) : string :=
  match l with
  | LOW => "LOW"
  | MEDIUM => "MEDIUM"
  | HIGH => "HIGH"
  | EXPERT => "EXPERT"
  end%string.

(** One element of [employee.skills]. *)
Module EmployeeSkill.
Record t : Type := mk {
  skillId : string;
  level : SkillLevel;
  score : Q
  }.
End EmployeeSkill.

(** One element of [activity.requiredSkills] (the ActivitySkill entity). *)
Module ActivitySkill.
Record t : Type := mk {
  skillId : string;
  requiredLevel : SkillLevel;
  weight : Q;
  isMandatory : bool;
  minScore : option Q
  }.
End ActivitySkill.

(** One element of [employee.skillEvolution]; both scores are recorded. *)
Module SkillEvolution.
Record t : Type := mk {
  previousScore : Q;
  newScore : Q
  }.
End SkillEvolution.

(** [employee.experience], the object handed to calculateExperienceScore. *)
Module Experience.
Record t (H : Type) : Type := mk {
  yearsOfExperience : Q;
  history : list H
  }.
Arguments mk {H}.
Arguments yearsOfExperience {H}.
Arguments history {H}.
End Experience.

Module Employee.
Record t (H : Type) : Type := mk {
  id : string;
  skills : list EmployeeSkill.t;
  experience : Experience.t H;
  skillEvolution : list SkillEvolution.t;
  level : SkillLevel
  }.
Arguments mk {H}.
Arguments id {H}.
Arguments skills {H}.
Arguments experience {H}.
Arguments skillEvolution {H}.
Arguments level {H}.
End Employee.

Module Activity.
Record t : Type := mk {
  id : string;
  type : ActivityType;
  targetLevel : SkillLevel;
  requiredSkills : list ActivitySkill.t;
  availableSeats : Z;
  filledSeats : Z
  }.
End Activity.

(** The [breakdown] member of a score result. *)
Module Breakdown.
Record t : Type := mk {
  skillScore : Q;
  experienceScore : Q;
  progressionScore : Q;
  contextScore : Q
  }.
End Breakdown.

(** The object returned by calculateEmployeeScore. *)
Module ScoreResult.
Record t : Type := mk {
  totalScore : Q;
  breakdown : Breakdown.t
  }.
End ScoreResult.

(** ** Small numeric helpers *)

(** [x < y] on numbers, as a boolean. *)
Definition Qltb (x y : Q) : bool := negb (Qle_bool y x).

Definition sumQ (l : list Q) : Q := fold_right Qplus 0 l.

(** [Array.prototype.find]: the first element satisfying the predicate. *)
Definition findSkill (employeeSkills : list EmployeeSkill.t) (sid : string)
  : option EmployeeSkill.t :=
  find (fun s => String.eqb (EmployeeSkill.skillId s) sid) employeeSkills.

(** ** Scoring algorithms *)

(** [const levelMap = { LOW: 1, MEDIUM: 2, HIGH: 3, EXPERT: 4 }] *)
Definition levelMap (l : SkillLevel) : Z :=
  match l with
  | LOW => 1
  | MEDIUM => 2
  | HIGH => 3
  | EXPERT => 4
  end%Z.

Definition calculateLevelMatch (employeeLevel requiredLevel : SkillLevel) : Q :=
  let empLevel := levelMap employeeLevel in
  let reqLevel := levelMap requiredLevel in
  if (reqLevel <=? empLevel)%Z
  then 1
  else inject_Z empLevel / inject_Z reqLevel * 0.7.

(** The loop of calculateSkillMatch, started from the two accumulators.
    [None] is the early exit [return 0 // Disqualified]; otherwise the final
    [(totalWeight, weightedScore)] is returned. *)
Fixpoint skillMatchLoop (employeeSkills : list EmployeeSkill.t)
    (requiredSkills : list ActivitySkill.t) (totalWeight weightedScore : Q)
  : option (Q * Q) :=
  match requiredSkills with
  | [] => Some (totalWeight, weightedScore)
  | required :: rest =>
      let totalWeight := totalWeight + ActivitySkill.weight required in
      match findSkill employeeSkills (ActivitySkill.skillId required) with
      | None =>
          if ActivitySkill.isMandatory required
          then None
          else skillMatchLoop employeeSkills rest totalWeight weightedScore
      | Some employeeSkill =>
          let levelScore :=
            calculateLevelMatch (EmployeeSkill.level employeeSkill)
                                (ActivitySkill.requiredLevel required) in
          skillMatchLoop employeeSkills rest totalWeight
            (weightedScore + levelScore * ActivitySkill.weight required)
      end
  end.

Definition calculateSkillMatch (employeeSkills : list EmployeeSkill.t)
    (requiredSkills : list ActivitySkill.t) : Q :=
  match skillMatchLoop employeeSkills requiredSkills 0 0 with
  | None => 0
  | Some (totalWeight, weightedScore) =>
      if Qltb 0 totalWeight then weightedScore / totalWeight * 100 else 0
  end.

(** [skillEvolution.slice(-5)]: the last five elements (all of them when
    there are fewer). *)
Definition sliceLast5 {A : Type} (l : list A) : list A :=
  skipn (length l - 5) l.

Definition calculateProgressionPotential
    (skillEvolution : list SkillEvolution.t) : Q :=
  match skillEvolution with
  | [] => 50
  | _ :: _ =>
      let recentEvolutions := sliceLast5 skillEvolution in
      let totalImprovement :=
        fold_left
          (fun total evolution =>
             total + (SkillEvolution.newScore evolution
                      - SkillEvolution.previousScore evolution))
          recentEvolutions 0 in
      let avgImprovement :=
        totalImprovement / inject_Z (Z.of_nat (length recentEvolutions)) in
      Qmin (Qmax (50 + avgImprovement * 2) 0) 100
  end.

Definition calculateContextualFit (targetLevel employeeLevel : SkillLevel)
  : Q :=
  let target := levelMap targetLevel in
  let employee := levelMap employeeLevel in
  if (target =? employee)%Z then 100
  else if (Z.abs (target - employee) =? 1)%Z then 80
  else if (Z.abs (target - employee) =? 2)%Z then 50
  else 20.

(** The functions below call [calculateRelevantExperience], whose body is
    not part of the documented algorithms; it is a parameter here. *)
Section Scoring.

Variable History : Type.
Variable calculateRelevantExperience : list History -> ActivityType -> Q.

Definition baseScore (employee : Experience.t History) : Q :=
  Qmin (Experience.yearsOfExperience employee * 5) 50.

Definition relevantBonus (employee : Experience.t History)
    (activityType : ActivityType) : Q :=
  Qmin (calculateRelevantExperience (Experience.history employee) activityType
        * 10) 50.

Definition calculateExperienceScore (employee : Experience.t History)
    (activityType : ActivityType) : Q :=
  Qmin (baseScore employee + relevantBonus employee activityType) 100.

Definition calculateEmployeeScore (employee : Employee.t History)
    (activity : Activity.t) : ScoreResult.t :=
  let skillScore :=
    calculateSkillMatch (Employee.skills employee)
                        (Activity.requiredSkills activity) in
  let experienceScore :=
    calculateExperienceScore (Employee.experience employee)
                             (Activity.type activity) in
  let progressionScore :=
    calculateProgressionPotential (Employee.skillEvolution employee) in
  let contextScore :=
    calculateContextualFit (Activity.targetLevel activity)
                           (Employee.level employee) in
  let finalScore :=
    skillScore * 0.5 + experienceScore * 0.2
    + progressionScore * 0.15 + contextScore * 0.15 in
  {| ScoreResult.totalScore := finalScore;
     ScoreResult.breakdown :=
       {| Breakdown.skillScore := skillScore;
          Breakdown.experienceScore := experienceScore;
          Breakdown.progressionScore := progressionScore;
          Breakdown.contextScore := contextScore |} |}.

End Scoring.

Arguments baseScore {History}.
Arguments relevantBonus {History}.
Arguments calculateExperienceScore {History}.
Arguments calculateEmployeeScore {History}.

(** ** Optimisation module: constraints *)

(** [Array.prototype.slice(0, end)] for an integer [end]: a negative [end]
    counts from the back, and the bound is clipped to the array. *)
Definition slice0 {A : Type} (l : list A) (end_ : Z) : list A :=
  let len := Z.of_nat (length l) in
  let final :=
    if (end_ <? 0)%Z then Z.max (len + end_) 0 else Z.min end_ len in
  firstn (Z.to_nat final) l.

Module SeatConstraint.

Definition validate {C : Type} (selection : list C) (activity : Activity.t)
  : bool :=
  (Z.of_nat (length selection) <=? Activity.availableSeats activity)%Z.

Definition apply {C : Type} (candidates : list C) (activity : Activity.t)
  : list C :=
  slice0 candidates (Activity.availableSeats activity).

End SeatConstraint.

(** [employeeSkill.level < required.requiredLevel] compares the two enum
    values as they are at run time, that is as strings. *)
Definition levelLt (a b : SkillLevel) : bool :=
  String.ltb (levelName a) (levelName b).

Module MandatorySkillConstraint.

(** The [for] loop over [mandatorySkills]. *)
Fixpoint validateLoop (employeeSkills : list EmployeeSkill.t)
    (mandatorySkills : list ActivitySkill.t) : bool :=
  match mandatorySkills with
  | [] => true
  | required :: rest =>
      match findSkill employeeSkills (ActivitySkill.skillId required) with
      | None => false
      | Some employeeSkill =>
          if levelLt (EmployeeSkill.level employeeSkill)
                     (ActivitySkill.requiredLevel required)
          then false
          else validateLoop employeeSkills rest
      end
  end.

Definition validate {H : Type} (employee : Employee.t H)
    (activity : Activity.t) : bool :=
  let mandatorySkills :=
    filter ActivitySkill.isMandatory (Activity.requiredSkills activity) in
  validateLoop (Employee.skills employee) mandatorySkills.

End MandatorySkillConstraint.

(** ** Optimisation module: tie-breaking *)

(** A ranked candidate as breakTies reads it, together with the members
    the specification of the tie-break mentions ([employeeId], [totalScore],
    [contextScore]). *)
Module Candidate.
Record t : Type := mk {
  employeeId : string;
  totalScore : Q;
  progressionScore : Q;
  contextScore : Q;
  availabilityScore : Q;
  lastActivityDate : Z
}.
End Candidate.

(** [Array.prototype.sort(compareFn)].  The sort is stable (ECMAScript 2019)
    and the comparators used here are consistent, so the result does not
    depend on the engine's algorithm; it is computed by stable insertion. *)
Fixpoint sortInsert {A : Type} (compareFn : A -> A -> Q) (x : A) (l : list A)
  : list A :=
  match l with
  | [] => [x]
  | y :: l' =>
      if Qle_bool (compareFn x y) 0
      then x :: y :: l'
      else y :: sortInsert compareFn x l'
  end.

Definition sort {A : Type} (compareFn : A -> A -> Q) (l : list A) : list A :=
  fold_right (sortInsert compareFn) [] l.

(** The comparator passed to [sort] by breakTies. *)
Definition tieCompare (a b : Candidate.t) : Q :=
  if negb (Qeq_bool (Candidate.progressionScore a)
                    (Candidate.progressionScore b))
  then Candidate.progressionScore b - Candidate.progressionScore a
  else if negb (Qeq_bool (Candidate.availabilityScore a)
                         (Candidate.availabilityScore b))
  then Candidate.availabilityScore b - Candidate.availabilityScore a
  else inject_Z (Candidate.lastActivityDate a - Candidate.lastActivityDate b).

Definition breakTies (candidates : list Candidate.t) : list Candidate.t :=
  sort tieCompare candidates.

(** ** Optimisation module: multi-objective optimisation *)

Module Objective.
Record t (E : Type) : Type := mk {
  calculate : E -> Activity.t -> Q
}.
Arguments mk {E}.
Arguments calculate {E}.
End Objective.

(** An element of [paretoFront]: [{ employee, scores }]. *)
Module FrontEntry.
Record t (E : Type) : Type := mk {
  employee : E;
  scores : list Q
}.
Arguments mk {E}.
Arguments employee {E}.
Arguments scores {E}.
End FrontEntry.

(** multiObjectiveOptimize calls [isDominated], whose body is not in the
    sources; it is a parameter of the loop. *)
Section MultiObjective.

Variable E : Type.
Variable isDominated : list Q -> list (FrontEntry.t E) -> bool.

(** The [for] loop of multiObjectiveOptimize; [paretoFront] is the array
    built so far and [push] appends at its end. *)
Fixpoint multiObjectiveLoop (employees : list E)
    (activity : Activity.t) (objectives : list (Objective.t E))
    (paretoFront : list (FrontEntry.t E)) : list (FrontEntry.t E) :=
  match employees with
  | [] => paretoFront
  | employee :: rest =>
      let scores :=
        map (fun obj => Objective.calculate obj employee activity) objectives in
      if isDominated scores paretoFront
      then multiObjectiveLoop rest activity objectives paretoFront
      else multiObjectiveLoop rest activity objectives
             (paretoFront ++ [FrontEntry.mk employee scores])
  end.

Definition multiObjectiveOptimize (employees : list E)
    (activity : Activity.t) (objectives : list (Objective.t E))
  : list (FrontEntry.t E) :=
  multiObjectiveLoop employees activity objectives [].

End MultiObjective.

Arguments multiObjectiveLoop {E}.
Arguments multiObjectiveOptimize {E}.

(** Modelled from the spec: the dominance relation.  "Candidate A dominates
    B iff A >= B on every objective and A > B on at least one." *)
Definition dominates (a b : list Q) : bool :=
  forallb (fun p => Qle_bool (snd p) (fst p)) (combine a b)
  && existsb (fun p => Qltb (snd p) (fst p)) (combine a b).

(** Modelled from the spec: [isDominated(scores, paretoFront)], absent from
    the sources, holds when some member of the front dominates [scores]. *)
Definition dominatedByFront {E : Type} (scores : list Q)
    (paretoFront : list (FrontEntry.t E)) : bool :=
  existsb (fun m => dominates (FrontEntry.scores m) scores) paretoFront.

(** The objective vector of an employee, as the loop computes it. *)
Definition scoresOf {E : Type} (activity : Activity.t)
    (objectives : list (Objective.t E)) (employee : E) : list Q :=
  map (fun obj => Objective.calculate obj employee activity) objectives.

(** The front computed with the dominance test of the specification. *)
Definition paretoFront {E : Type} (employees : list E)
    (activity : Activity.t) (objectives : list (Objective.t E))
  : list (FrontEntry.t E) :=
  multiObjectiveOptimize dominatedByFront employees activity objectives.

(** ** A concrete history, for examples *)

Module HistoryEntry.
Record t : Type := mk {
  activityType : ActivityType;
  years : Q
}.
End HistoryEntry.

Definition ActivityType_eqb (a b : ActivityType) : bool :=
  match a, b with
  | TRAINING, TRAINING | CERTIFICATION, CERTIFICATION | PROJECT, PROJECT
  | MISSION, MISSION | AUDIT, AUDIT => true
  | _, _ => false
  end.

(** Modelled from the spec: [calculateRelevantExperience(history,
    activityType)] is called by calculateExperienceScore but is not in the
    sources.  The spec says that relevant experience "is derived from
    activity-type-matching history": here it is the total of the years of
    the history entries whose activity type is the requested one. *)
Definition relevantExperienceByType (history : list HistoryEntry.t)
    (activityType : ActivityType) : Q :=
  sumQ (map HistoryEntry.years
          (filter (fun h => ActivityType_eqb (HistoryEntry.activityType h)
                                             activityType) history)).

(** ** The formulas of the specification *)

(** The employee lacks a skill that the activity marks mandatory. *)
Definition lacksMandatorySkill (employeeSkills : list EmployeeSkill.t)
    (requiredSkills : list ActivitySkill.t) : Prop :=
  exists required,
    In required requiredSkills
    /\ ActivitySkill.isMandatory required = true
    /\ findSkill employeeSkills (ActivitySkill.skillId required) = None.

(** Sum of [levelScore * w] over the required skills the employee has. *)
Definition weightedLevelSum (employeeSkills : list EmployeeSkill.t)
    (requiredSkills : list ActivitySkill.t) : Q :=
  sumQ (map (fun required =>
               match findSkill employeeSkills
                       (ActivitySkill.skillId required) with
               | Some s =>
                   calculateLevelMatch (EmployeeSkill.level s)
                                       (ActivitySkill.requiredLevel required)
                   * ActivitySkill.weight required
               | None => 0
               end) requiredSkills).

(** Sum of the weights of all required skills. *)
Definition weightOfAll (requiredSkills : list ActivitySkill.t) : Q :=
  sumQ (map ActivitySkill.weight requiredSkills).

(** Sum of the weights of the required skills the employee has. *)
Definition weightOfPresent (employeeSkills : list EmployeeSkill.t)
    (requiredSkills : list ActivitySkill.t) : Q :=
  sumQ (map (fun required =>
               match findSkill employeeSkills
                       (ActivitySkill.skillId required) with
               | Some _ => ActivitySkill.weight required
               | None => 0
               end) requiredSkills).

(** The skill sub-score as the specification words it: a missing optional
    skill is left out of the denominator. *)
Definition skillScoreSpec (employeeSkills : list EmployeeSkill.t)
    (requiredSkills : list ActivitySkill.t) : Q :=
  if Qltb 0 (weightOfPresent employeeSkills requiredSkills)
  then 100 * weightedLevelSum employeeSkills requiredSkills
       / weightOfPresent employeeSkills requiredSkills
  else 0.

(** The skill sub-score with every required weight in the denominator. *)
Definition skillScoreAllWeights (employeeSkills : list EmployeeSkill.t)
    (requiredSkills : list ActivitySkill.t) : Q :=
  if Qltb 0 (weightOfAll requiredSkills)
  then 100 * weightedLevelSum employeeSkills requiredSkills
       / weightOfAll requiredSkills
  else 0.

(** The tie-break order as the specification words it: higher
    progressionScore, then higher contextScore, then older lastActivityDate,
    then lexical candidate id. *)
Definition specTieBefore (a b : Candidate.t) : bool :=
  if negb (Qeq_bool (Candidate.progressionScore a)
                    (Candidate.progressionScore b))
  then Qltb (Candidate.progressionScore b) (Candidate.progressionScore a)
  else if negb (Qeq_bool (Candidate.contextScore a) (Candidate.contextScore b))
  then Qltb (Candidate.contextScore b) (Candidate.contextScore a)
  else if negb (Candidate.lastActivityDate a =? Candidate.lastActivityDate b)%Z
  then (Candidate.lastActivityDate a <? Candidate.lastActivityDate b)%Z
  else String.leb (Candidate.employeeId a) (Candidate.employeeId b).

(** The order breakTies sorts by: [tieCompare a b <= 0]. *)
Definition tieLe (a b : Candidate.t) : Prop := tieCompare a b <= 0.

(** Two candidates the comparator cannot tell apart. *)
Definition tieEquivb (a b : Candidate.t) : bool :=
  Qeq_bool (Candidate.progressionScore a) (Candidate.progressionScore b)
  && Qeq_bool (Candidate.availabilityScore a) (Candidate.availabilityScore b)
  && (Candidate.lastActivityDate a =? Candidate.lastActivityDate b)%Z.

(** ** Concrete inputs *)

Definition mkEmployee (id : string) (skills : list EmployeeSkill.t)
    (years : Q) (level : SkillLevel) : Employee.t HistoryEntry.t :=
  Employee.mk id skills (Experience.mk years []) [] level.

(** The end-to-end example: Skill A mandatory, HIGH, weight 0.6; Skill B
    optional, MEDIUM, weight 0.4; target level HIGH. *)
Definition exampleActivity (type : ActivityType) (minA minB : option Q)
  : Activity.t :=
  Activity.mk "activity-1" type HIGH
    [ ActivitySkill.mk "A" HIGH 0.6 true minA;
      ActivitySkill.mk "B" MEDIUM 0.4 false minB ]
    10 0.

(** The employee of the end-to-end example: A at EXPERT, B at LOW, five
    years of experience, no history, no skill evolution, overall level
    EXPERT. *)
Definition exampleEmployee {H : Type} (scoreA scoreB : Q) : Employee.t H :=
  Employee.mk "employee-1"
    [ EmployeeSkill.mk "A" EXPERT scoreA; EmployeeSkill.mk "B" LOW scoreB ]
    (Experience.mk 5 []) [] EXPERT.

(** An employee without any recorded skill. *)
Definition unskilledEmployee : Employee.t HistoryEntry.t :=
  mkEmployee "employee-2" [] 0 HIGH.

(** Two optional requirements; an employee who has only the first. *)
Definition optionalRequirements : list ActivitySkill.t :=
  [ ActivitySkill.mk "A" LOW 0.6 false None;
    ActivitySkill.mk "B" LOW 0.4 false None ].

Definition onlySkillA : list EmployeeSkill.t :=
  [ EmployeeSkill.mk "A" LOW 40 ].

(** One mandatory requirement at MEDIUM; an employee who has it at LOW. *)
Definition mediumActivity : Activity.t :=
  Activity.mk "activity-2" TRAINING MEDIUM
    [ ActivitySkill.mk "A" MEDIUM 1 true None ] 2 1.

Definition juniorEmployee : Employee.t HistoryEntry.t :=
  mkEmployee "employee-3" [ EmployeeSkill.mk "A" LOW 30 ] 1 LOW.

Definition seniorEmployee : Employee.t HistoryEntry.t :=
  mkEmployee "employee-4" [ EmployeeSkill.mk "A" EXPERT 90 ] 2 EXPERT.

Definition matchingEmployee : Employee.t HistoryEntry.t :=
  mkEmployee "employee-5" [ EmployeeSkill.mk "A" MEDIUM 60 ] 3 MEDIUM.

(** An objective that scores an employee by years of experience. *)
Definition experienceObjective : Objective.t (Employee.t HistoryEntry.t) :=
  Objective.mk
    (fun employee _ =>
       Experience.yearsOfExperience (Employee.experience employee)).

(** Two candidates with the same total and progression scores; the first
    has the better context score, the second the better availability. *)
Definition candidateA : Candidate.t :=
  Candidate.mk "a" 60 50 100 0 1000.

Definition candidateB : Candidate.t :=
  Candidate.mk "b" 60 50 20 1 1000.

(** ** Agreement of inputs up to the numeric score fields *)

(** Two skill lists with the same skill ids and levels, position by
    position; the [score] members are unconstrained. *)
Definition sameSkillLevels (es1 es2 : list EmployeeSkill.t) : Prop :=
  map (fun s => (EmployeeSkill.skillId s, EmployeeSkill.level s)) es1
  = map (fun s => (EmployeeSkill.skillId s, EmployeeSkill.level s)) es2.

(** Two requirement lists that differ at most in [minScore]. *)
Definition sameUpToMinScore (rs1 rs2 : list ActivitySkill.t) : Prop :=
  map (fun r => (ActivitySkill.skillId r, ActivitySkill.requiredLevel r,
                 ActivitySkill.weight r, ActivitySkill.isMandatory r)) rs1
  = map (fun r => (ActivitySkill.skillId r, ActivitySkill.requiredLevel r,
                   ActivitySkill.weight r, ActivitySkill.isMandatory r)) rs2.

(** The precedence breakTies sorts by, field by field: higher
    progressionScore, then higher availabilityScore, then older
    lastActivityDate. *)
Definition tiePrecedes (a b : Candidate.t) : Prop :=
  Candidate.progressionScore b < Candidate.progressionScore a
  \/ (Candidate.progressionScore a == Candidate.progressionScore b
      /\ (Candidate.availabilityScore b < Candidate.availabilityScore a
          \/ (Candidate.availabilityScore a == Candidate.availabilityScore b
              /\ (Candidate.lastActivityDate a
                  <= Candidate.lastActivityDate b)%Z))).

(** * Further parts of the code

    Beyond the scoring and optimisation routines above: the strategies of
    the optimisation module, the score update of the evaluation module
    ([docs/modules/08_EVALUATION_MODULE.md]) and the users service
    ([modules/users/users.service.ts]). *)

(** ** Further definitions: scoring *)

(** The employee holds the required skill at or above the required level,
    by the ordinal of [levelMap]. *)
Definition meetsRequirement (employeeSkills : list EmployeeSkill.t)
    (required : ActivitySkill.t) : Prop :=
  exists s,
    findSkill employeeSkills (ActivitySkill.skillId required) = Some s
    /\ (levelMap (ActivitySkill.requiredLevel required)
        <= levelMap (EmployeeSkill.level s))%Z.

(** The improvement an evolution records. *)
Definition improvement (evolution : SkillEvolution.t) : Q :=
  SkillEvolution.newScore evolution - SkillEvolution.previousScore evolution.

(** ** Further definitions: multi-objective optimisation *)

(** The members of a front are each undominated by those before them. *)
Definition undominatedByEarlier {E : Type} (front : list (FrontEntry.t E))
  : Prop :=
  forall i m,
    nth_error front i = Some m ->
    dominatedByFront (FrontEntry.scores m) (firstn i front) = false.

(** ** Further definitions: optimisation strategies *)

(** An element of a strategy's result: [{ employee, score }]. *)
Module Scored.
Record t (E : Type) : Type := mk {
  employee : E;
  score : Q
}.
Arguments mk {E}.
Arguments employee {E}.
Arguments score {E}.
End Scored.

(** The comparator [(a, b) => b.score - a.score] of the strategies. *)
Definition byScoreDescending {E : Type} (a b : Scored.t E) : Q :=
  Scored.score b - Scored.score a.

(** In the strategy classes a name called without [this] is looked up
    outside the class.  The sources define none of these names at that
    level, so each one is a parameter: the requirement test, and also the
    scoring function that [optimize] calls, which is not the method of the
    same name declared next to it. *)
Module UpskillingStrategy.

Section Optimize.

Variable E : Type.
Variable meetsMinimumRequirements : E -> Activity.t -> bool.
Variable calculateUpskillingScore : E -> Activity.t -> Q.

Definition optimize (employees : list E) (activity : Activity.t)
  : list (Scored.t E) :=
  sort byScoreDescending
    (map (fun emp => Scored.mk emp (calculateUpskillingScore emp activity))
       (filter (fun emp => meetsMinimumRequirements emp activity) employees)).

End Optimize.

Arguments optimize {E}.

End UpskillingStrategy.

Module ExpertiseStrategy.

Section Optimize.

Variable E : Type.
Variable meetsRequirements : E -> Activity.t -> bool.
Variable calculateExpertiseScore : E -> Activity.t -> Q.

Definition optimize (employees : list E) (activity : Activity.t)
  : list (Scored.t E) :=
  sort byScoreDescending
    (map (fun emp => Scored.mk emp (calculateExpertiseScore emp activity))
       (filter (fun emp => meetsRequirements emp activity) employees)).

End Optimize.

Arguments optimize {E}.

End ExpertiseStrategy.

(** Descending order of score. *)
Definition scoreDescending {E : Type} (a b : Scored.t E) : Prop :=
  Scored.score b <= Scored.score a.

(** ** Further definitions: post-activity evaluation *)

(** [calculateNewScore] of the evaluation module. *)
Definition calculateNewScore (currentScore overallRating skillPerformance : Q)
  : Q :=
  let ratingBonus := (overallRating - 3) * 5 in
  let performanceBonus := (skillPerformance - 3) * 3 in
  let newScore := currentScore + ratingBonus + performanceBonus in
  let newScore :=
    if Qltb 80 currentScore
    then currentScore + (ratingBonus + performanceBonus) * 0.5
    else newScore in
  Qmax 0 (Qmin 100 newScore).

(** The scores of the evolution that [updateSkillsAfterEvaluation] records
    for one skill update: [previousScore: employeeSkill.score] and
    [newScore] as computed by calculateNewScore from the evaluation's
    overall rating and the update's performance rating. *)
Definition recordedEvolution (employeeSkill : EmployeeSkill.t)
    (overallRating performanceRating : Q) : SkillEvolution.t :=
  SkillEvolution.mk (EmployeeSkill.score employeeSkill)
    (calculateNewScore (EmployeeSkill.score employeeSkill)
       overallRating performanceRating).

(** An evolution recorded from a score in [0, 100] that is a multiple of
    one half and from whole ratings on the scale 1 to 5.  On such values
    every intermediate result of calculateNewScore is again a multiple of
    one half of small magnitude, which binary floating point holds
    exactly. *)
Definition fromEvaluation (evolution : SkillEvolution.t) : Prop :=
  exists employeeSkill (halfPoints overallRating performanceRating : Z),
    (0 <= halfPoints <= 200)%Z
    /\ EmployeeSkill.score employeeSkill == inject_Z halfPoints * 0.5
    /\ (1 <= overallRating <= 5)%Z
    /\ (1 <= performanceRating <= 5)%Z
    /\ evolution
       = recordedEvolution employeeSkill (inject_Z overallRating)
           (inject_Z performanceRating).

(** ** Users service

    [UsersService] of [modules/users/users.service.ts].  The Mongoose model
    [this.userModel] is the collection of user documents, a list in
    insertion order that every method receives and, when it writes, returns.
    [select('-password')] yields the document without its password member.
    A rejected promise is a left injection carrying the exception.  The
    methods that take an identifier from the request, findOne and remove,
    hand it to Mongoose, which raises a CastError when the string does not
    cast to an ObjectId; which strings cast is a parameter. *)

Module User.
Record t : Type := mk {
  _id : string;
  name : string;
  matricule : string;
  telephone : string;
  email : string;
  password : option string;
  date_embauche : Z;
  departement_id : option string;
  manager_id : option string;
  status : string;
  en_ligne : bool;
  role : string;
  isActive : bool;
  emailVerified : bool;
  verificationToken : option string;
  resetPasswordToken : option string;
  resetPasswordExpires : option Z;
  lastLogin : option Z
}.
End User.

Module CreateUserDto.
Record t : Type := mk {
  name : string;
  matricule : string;
  telephone : string;
  email : string;
  password : string;
  date_embauche : Z;
  departement_id : option string;
  manager_id : option string;
  status : option string;
  role : option string
}.
End CreateUserDto.

Inductive Exception : Type :=
  | NotFoundException (message : string)
  | ConflictException (message : string)
  | ValidationError
  | CastError.

(** [!s] for an optional string argument: absent or empty. *)
Definition falsy (s : option string) : bool :=
  match s with
  | None => true
  | Some s => String.eqb s EmptyString
  end.

Definition orDefault {A : Type} (d : A) (o : option A) : A :=
  match o with
  | Some x => x
  | None => d
  end.

Module UsersService.

(** [.select('-password')] *)
Definition selectWithoutPassword (u : User.t) : User.t :=
  User.mk (User._id u) (User.name u) (User.matricule u) (User.telephone u)
    (User.email u) None (User.date_embauche u) (User.departement_id u)
    (User.manager_id u) (User.status u) (User.en_ligne u) (User.role u)
    (User.isActive u) (User.emailVerified u) (User.verificationToken u)
    (User.resetPasswordToken u) (User.resetPasswordExpires u)
    (User.lastLogin u).

(** [userModel.findById(id)] *)
Definition findById (users : list User.t) (id : string) : option User.t :=
  find (fun u => String.eqb (User._id u) id) users.

(** [.where('role').in(roles)] *)
Definition roleIn (roles : list string) (u : User.t) : bool :=
  existsb (String.eqb (User.role u)) roles.

Definition findAll (users : list User.t)
    (currentUserId currentUserRole : option string) : list User.t :=
  if falsy currentUserId || falsy currentUserRole
  then map selectWithoutPassword users
  else
    let currentUserId := orDefault EmptyString currentUserId in
    let currentUserRole := orDefault EmptyString currentUserRole in
    if String.eqb currentUserRole "HR"
    then map selectWithoutPassword users
    else if String.eqb currentUserRole "MANAGER"
    then map selectWithoutPassword
           (filter (roleIn ["EMPLOYEE"; "MANAGER"]%string) users)
    else if String.eqb currentUserRole "EMPLOYEE"
    then match findById users currentUserId with
         | Some user => [selectWithoutPassword user]
         | None => []
         end
    else [].


Definition findByEmail (users : list User.t) (email : string)
  : option User.t :=
  find (fun u => String.eqb (User.email u) email) users.

Definition findByMatricule (users : list User.t) (matricule : string)
  : option User.t :=
  find (fun u => String.eqb (User.matricule u) matricule) users.

(** [userModel.findByIdAndDelete(id)]: the collection without the document
    found. *)
Fixpoint deleteById (users : list User.t) (id : string) : list User.t :=
  match users with
  | [] => []
  | u :: rest =>
      if String.eqb (User._id u) id then rest else u :: deleteById rest id
  end.

(** findOne and remove; [castsToObjectId] tells the strings Mongoose casts
    to an ObjectId. *)
Section ById.

Variable castsToObjectId : string -> bool.

Definition findOne (users : list User.t) (id : string)
  : Exception + User.t :=
  if castsToObjectId id
  then match findById users id with
       | None => inl (NotFoundException "User not found")
       | Some user => inr (selectWithoutPassword user)
       end
  else inl CastError.

(** The deleted document is returned as stored (no [select]). *)
Definition remove (users : list User.t) (id : string)
  : Exception + (User.t * list User.t) :=
  if castsToObjectId id
  then match findById users id with
       | None => inl (NotFoundException "User not found")
       | Some user => inr (user, deleteById users id)
       end
  else inl CastError.

End ById.

(** [new this.userModel(createUserDto)]: the document with the defaults of
    the schema, under the identifier Mongoose assigns. *)
Definition newDocument (newId : string) (dto : CreateUserDto.t) : User.t :=
  User.mk newId (CreateUserDto.name dto) (CreateUserDto.matricule dto)
    (CreateUserDto.telephone dto) (CreateUserDto.email dto)
    (Some (CreateUserDto.password dto)) (CreateUserDto.date_embauche dto)
    (CreateUserDto.departement_id dto) (CreateUserDto.manager_id dto)
    (orDefault "active"%string (CreateUserDto.status dto)) false
    (orDefault "EMPLOYEE"%string (CreateUserDto.role dto)) true false
    None None None None.

(** [create]: the identifier Mongoose assigns to the new document and the
    validation [save] runs against the schema are parameters. *)
Section Create.

Variable schemaValidates : User.t -> bool.

Definition create (users : list User.t) (newId : string)
    (createUserDto : CreateUserDto.t)
  : Exception + (User.t * list User.t) :=
  let existingUser :=
    find (fun u =>
            String.eqb (User.email u) (CreateUserDto.email createUserDto)
            || String.eqb (User.matricule u)
                          (CreateUserDto.matricule createUserDto))
         users in
  match existingUser with
  | Some _ =>
      inl (ConflictException
             "User with this email or matricule already exists")
  | None =>
      let createdUser := newDocument newId createUserDto in
      if schemaValidates createdUser
      then inr (createdUser, users ++ [createdUser])
      else inl ValidationError
  end.

End Create.

End UsersService.

(** Sample users. *)
Definition sampleUser (id email matricule role : string) : User.t :=
  User.mk id "name" matricule "000" email (Some "secret"%string) 0 None None
    "active" false role true false None None None None.

Definition sampleUsers : list User.t :=
  [ sampleUser "u1" "hr@x" "M1" "HR";
    sampleUser "u2" "boss@x" "M2" "MANAGER";
    sampleUser "u3" "emp@x" "M3" "EMPLOYEE" ]%string.

(** An instance of the cast for the examples: the strings of 24 hexadecimal
    digits. *)
Definition isHexDigit (c : Ascii.ascii) : bool :=
  let n := Ascii.nat_of_ascii c in
  ((48 <=? n) && (n <=? 57) || (97 <=? n) && (n <=? 102)
   || (65 <=? n) && (n <=? 70))%nat.

Fixpoint allHexDigits (s : string) : bool :=
  match s with
  | EmptyString => true
  | String c rest => isHexDigit c && allHexDigits rest
  end.

Definition hexObjectId (s : string) : bool :=
  (String.length s =? 24)%nat && allHexDigits s.

(** Users stored under identifiers of that form. *)
Definition storedUsers : list User.t :=
  [ sampleUser "64b0c0ffee0000000000a001" "hr@x" "M1" "HR";
    sampleUser "64b0c0ffee0000000000a002" "boss@x" "M2" "MANAGER";
    sampleUser "64b0c0ffee0000000000a003" "emp@x" "M3" "EMPLOYEE" ]%string.

(** ** Facts about the numeric helpers *)

Lemma Qltb_lt (x y : Q) : Qltb x y = true <-> x < y.
Proof.
  unfold Qltb. rewrite negb_true_iff.
  destruct (Qle_bool y x) eqn:E.
  - apply Qle_bool_iff in E. split; [discriminate | intro; lra].
  - split; [intros _ | reflexivity].
    apply Qnot_le_lt. intro Hle. apply Qle_bool_iff in Hle. congruence.
Qed.

Lemma Qltb_compat (x x' y y' : Q) :
  x == x' -> y == y' -> Qltb x y = Qltb x' y'.
Proof.
  intros Hx Hy. unfold Qltb. f_equal.
  destruct (Qle_bool y x) eqn:E, (Qle_bool y' x') eqn:E'; try reflexivity.
  - apply Qle_bool_iff in E. rewrite Hx, Hy in E.
    apply Qle_bool_iff in E. congruence.
  - apply Qle_bool_iff in E'. rewrite <- Hx, <- Hy in E'.
    apply Qle_bool_iff in E'. congruence.
Qed.

Lemma Qmin_le_l (x y : Q) : Qmin x y <= x.
Proof. apply Q.le_min_l. Qed.

Lemma Qmin_le_r (x y : Q) : Qmin x y <= y.
Proof. apply Q.le_min_r. Qed.

Lemma Qmin_glb (x y z : Q) : z <= x -> z <= y -> z <= Qmin x y.
Proof. apply Q.min_glb. Qed.

Lemma Qmin_mono (x x' y : Q) : x <= x' -> Qmin x y <= Qmin x' y.
Proof.
  intro H. apply Qmin_glb.
  - eapply Qle_trans; [apply Qmin_le_l | exact H].
  - apply Qmin_le_r.
Qed.

Lemma Qmin_eq_compat (x x' y : Q) : x == x' -> Qmin x y == Qmin x' y.
Proof.
  intro H. apply Qle_antisym; apply Qmin_mono; rewrite H; apply Qle_refl.
Qed.

Lemma Qdiv_scaled_bounds (w t : Q) :
  0 <= w -> w <= t -> 0 < t -> 0 <= w / t * 100 /\ w / t * 100 <= 100.
Proof.
  intros Hw Hwt Ht.
  assert (H0 : 0 <= w / t) by (apply Qle_shift_div_l; [exact Ht | lra]).
  assert (H1 : w / t <= 1) by (apply Qle_shift_div_r; [exact Ht | lra]).
  split; lra.
Qed.

(** ** The documented sample values *)

Example levelMatch_meets_requirement :
  calculateLevelMatch HIGH MEDIUM = 1 /\ calculateLevelMatch HIGH HIGH = 1.
Proof. split; reflexivity. Qed.

Example levelMatch_low_vs_expert : calculateLevelMatch LOW EXPERT == 0.175.
Proof. reflexivity. Qed.

Example contextualFit_samples :
  calculateContextualFit EXPERT LOW = 20
  /\ calculateContextualFit HIGH HIGH = 100
  /\ calculateContextualFit HIGH EXPERT = 80
  /\ calculateContextualFit LOW HIGH = 50.
Proof. repeat split. Qed.

Example progression_samples :
  calculateProgressionPotential [] = 50
  /\ calculateProgressionPotential
       [SkillEvolution.mk 40 50; SkillEvolution.mk 50 70] == 80
  /\ calculateProgressionPotential [SkillEvolution.mk 90 10] == 0.
Proof. repeat split. Qed.

Example slice0_samples :
  slice0 [1; 2; 3]%Z 2 = [1; 2]%Z
  /\ slice0 [1; 2; 3]%Z 5 = [1; 2; 3]%Z
  /\ slice0 [1; 2; 3]%Z (-1) = [1; 2]%Z
  /\ slice0 [1; 2; 3]%Z 0 = [].
Proof. repeat split. Qed.

(** ** Facts about the skill-match loop *)

Lemma calculateLevelMatch_bounds (e r : SkillLevel) :
  0 <= calculateLevelMatch e r /\ calculateLevelMatch e r <= 1.
Proof.
  destruct e, r; vm_compute; split; discriminate.
Qed.

(** The loop exits early exactly when a mandatory skill is missing. *)
Lemma skillMatchLoop_None_iff employeeSkills requiredSkills tw ws :
  skillMatchLoop employeeSkills requiredSkills tw ws = None
  <-> lacksMandatorySkill employeeSkills requiredSkills.
Proof.
  unfold lacksMandatorySkill.
  revert tw ws. induction requiredSkills as [|r rs IH]; intros tw ws; simpl.
  - split; [discriminate | intros (x & [] & _)].
  - destruct (findSkill employeeSkills (ActivitySkill.skillId r)) eqn:F.
    + rewrite IH. split.
      * intros (x & Hin & Hm & Hf). exists x. auto.
      * intros (x & [-> | Hin] & Hm & Hf); [congruence | exists x; auto].
    + destruct (ActivitySkill.isMandatory r) eqn:M.
      * split; [intros _; exists r; auto | reflexivity].
      * rewrite IH. split.
        -- intros (x & Hin & Hm & Hf). exists x. auto.
        -- intros (x & [-> | Hin] & Hm & Hf); [congruence | exists x; auto].
Qed.

(** When the loop runs to its end, the accumulators hold the two sums. *)
Lemma skillMatchLoop_Some employeeSkills requiredSkills tw ws tw' ws' :
  skillMatchLoop employeeSkills requiredSkills tw ws = Some (tw', ws') ->
  tw' == tw + weightOfAll requiredSkills
  /\ ws' == ws + weightedLevelSum employeeSkills requiredSkills.
Proof.
  unfold weightOfAll, weightedLevelSum.
  revert tw ws. induction requiredSkills as [|r rs IH]; intros tw ws; simpl.
  - intros [= <- <-]. split; ring.
  - destruct (findSkill employeeSkills (ActivitySkill.skillId r)) eqn:F.
    + intros H. apply IH in H as [H1 H2]. rewrite H1, H2. split; ring.
    + destruct (ActivitySkill.isMandatory r); [discriminate|].
      intros H. apply IH in H as [H1 H2]. rewrite H1, H2. split; ring.
Qed.

Lemma weightedLevelSum_bounds employeeSkills requiredSkills :
  Forall (fun r => 0 <= ActivitySkill.weight r) requiredSkills ->
  0 <= weightedLevelSum employeeSkills requiredSkills
  /\ weightedLevelSum employeeSkills requiredSkills
     <= weightOfAll requiredSkills.
Proof.
  unfold weightOfAll, weightedLevelSum.
  induction 1 as [|r rs Hr _ IH]; simpl.
  - split; apply Qle_refl.
  - destruct IH as [IH0 IH1].
    destruct (findSkill employeeSkills (ActivitySkill.skillId r)) as [s|].
    + destruct (calculateLevelMatch_bounds (EmployeeSkill.level s)
                  (ActivitySkill.requiredLevel r)) as [L0 L1].
      split; nra.
    + split; lra.
Qed.

Lemma calculateSkillMatch_lacking employeeSkills requiredSkills :
  lacksMandatorySkill employeeSkills requiredSkills ->
  calculateSkillMatch employeeSkills requiredSkills = 0.
Proof.
  intro H. unfold calculateSkillMatch.
  apply (skillMatchLoop_None_iff _ _ 0 0) in H. rewrite H. reflexivity.
Qed.

Lemma calculateSkillMatch_all_weights employeeSkills requiredSkills :
  ~ lacksMandatorySkill employeeSkills requiredSkills ->
  calculateSkillMatch employeeSkills requiredSkills
  == skillScoreAllWeights employeeSkills requiredSkills.
Proof.
  intro H. unfold calculateSkillMatch, skillScoreAllWeights.
  destruct (skillMatchLoop employeeSkills requiredSkills 0 0)
    as [[tw ws]|] eqn:L.
  - apply skillMatchLoop_Some in L as [Htw Hws].
    assert (Etw : tw == weightOfAll requiredSkills) by (rewrite Htw; ring).
    assert (Ews : ws == weightedLevelSum employeeSkills requiredSkills)
      by (rewrite Hws; ring).
    rewrite (Qltb_compat 0 0 tw (weightOfAll requiredSkills)
               (Qeq_refl 0) Etw).
    destruct (Qltb 0 (weightOfAll requiredSkills)) eqn:P; [|reflexivity].
    apply Qltb_lt in P.
    rewrite Etw, Ews. field. lra.
  - exfalso. apply H. apply (skillMatchLoop_None_iff _ _ 0 0). exact L.
Qed.

Lemma calculateSkillMatch_bounds employeeSkills requiredSkills :
  Forall (fun r => 0 <= ActivitySkill.weight r) requiredSkills ->
  0 <= calculateSkillMatch employeeSkills requiredSkills
  /\ calculateSkillMatch employeeSkills requiredSkills <= 100.
Proof.
  intro Hw. unfold calculateSkillMatch.
  destruct (skillMatchLoop employeeSkills requiredSkills 0 0)
    as [[tw ws]|] eqn:L; [|split; lra].
  apply skillMatchLoop_Some in L as [Htw Hws].
  destruct (weightedLevelSum_bounds employeeSkills requiredSkills Hw)
    as [B0 B1].
  destruct (Qltb 0 tw) eqn:P; [|split; lra].
  apply Qltb_lt in P.
  apply Qdiv_scaled_bounds; lra.
Qed.

(** ** Facts about the other sub-scores *)

Lemma calculateProgressionPotential_bounds skillEvolution :
  0 <= calculateProgressionPotential skillEvolution
  /\ calculateProgressionPotential skillEvolution <= 100.
Proof.
  unfold calculateProgressionPotential.
  destruct skillEvolution as [|e l]; [split; lra|].
  split.
  - apply Qmin_glb; [apply Q.le_max_r | lra].
  - apply Qmin_le_r.
Qed.

Lemma calculateContextualFit_bounds t e :
  20 <= calculateContextualFit t e /\ calculateContextualFit t e <= 100.
Proof.
  destruct t, e; vm_compute; split; discriminate.
Qed.

Section ExperienceFacts.

Variable History : Type.
Variable calculateRelevantExperience : list History -> ActivityType -> Q.

Lemma baseScore_le_50 (e : Experience.t History) : baseScore e <= 50.
Proof. apply Qmin_le_r. Qed.

Lemma relevantBonus_le_50 (e : Experience.t History) ty :
  relevantBonus calculateRelevantExperience e ty <= 50.
Proof. apply Qmin_le_r. Qed.

Lemma calculateExperienceScore_le_100 (e : Experience.t History) ty :
  calculateExperienceScore calculateRelevantExperience e ty <= 100.
Proof. apply Qmin_le_r. Qed.

Lemma calculateExperienceScore_nonneg (e : Experience.t History) ty :
  0 <= Experience.yearsOfExperience e ->
  0 <= calculateRelevantExperience (Experience.history e) ty ->
  0 <= calculateExperienceScore calculateRelevantExperience e ty.
Proof.
  intros Hy Hr. unfold calculateExperienceScore.
  assert (0 <= baseScore e) by (apply Qmin_glb; lra).
  assert (0 <= relevantBonus calculateRelevantExperience e ty)
    by (apply Qmin_glb; lra).
  apply Qmin_glb; lra.
Qed.

Lemma calculateExperienceScore_mono (e1 e2 : Experience.t History) ty :
  Experience.yearsOfExperience e1 <= Experience.yearsOfExperience e2 ->
  calculateRelevantExperience (Experience.history e1) ty
  <= calculateRelevantExperience (Experience.history e2) ty ->
  calculateExperienceScore calculateRelevantExperience e1 ty
  <= calculateExperienceScore calculateRelevantExperience e2 ty.
Proof.
  intros Hy Hr. unfold calculateExperienceScore.
  apply Qmin_mono.
  assert (baseScore e1 <= baseScore e2)
    by (apply Qmin_mono; lra).
  assert (relevantBonus calculateRelevantExperience e1 ty
          <= relevantBonus calculateRelevantExperience e2 ty)
    by (apply Qmin_mono; lra).
  lra.
Qed.

End ExperienceFacts.

(** ** Mandatory skills and the composite score *)

(** C1 (as the code has it): when the employee lacks a mandatory skill, the
    skill sub-score is 0 and the total is the weighted sum of the three
    remaining sub-scores; nothing overrides the composite. *)
Theorem missing_mandatory_zeroes_skill_score
    (History : Type) (rel : list History -> ActivityType -> Q)
    (employee : Employee.t History) (activity : Activity.t) :
  lacksMandatorySkill (Employee.skills employee)
                      (Activity.requiredSkills activity) ->
  let r := calculateEmployeeScore rel employee activity in
  let b := ScoreResult.breakdown r in
  Breakdown.skillScore b = 0
  /\ ScoreResult.totalScore r
     == Breakdown.experienceScore b * 0.2
        + Breakdown.progressionScore b * 0.15
        + Breakdown.contextScore b * 0.15.
Proof.
  intros Hlack. simpl.
  rewrite (calculateSkillMatch_lacking _ _ Hlack).
  split; [reflexivity | ring].
Qed.

Lemma unskilledEmployee_lacks_A :
  lacksMandatorySkill (Employee.skills unskilledEmployee)
    (Activity.requiredSkills (exampleActivity TRAINING None None)).
Proof.
  exists (ActivitySkill.mk "A" HIGH 0.6 true None).
  simpl. auto.
Defined.

Lemma missing_mandatory_zeroes_skill_score_witness :
  let r := calculateEmployeeScore relevantExperienceByType unskilledEmployee
             (exampleActivity TRAINING None None) in
  let b := ScoreResult.breakdown r in
  Breakdown.skillScore b = 0
  /\ ScoreResult.totalScore r
     == Breakdown.experienceScore b * 0.2
        + Breakdown.progressionScore b * 0.15
        + Breakdown.contextScore b * 0.15.
Proof.
  apply (missing_mandatory_zeroes_skill_score HistoryEntry.t
           relevantExperienceByType unskilledEmployee
           (exampleActivity TRAINING None None)).
  exact unskilledEmployee_lacks_A.
Defined.

(** C1 (as stated) fails: an employee without the mandatory skill A still
    gets a total of 22.5, not 0. *)
Lemma missing_mandatory_total_not_zero :
  lacksMandatorySkill (Employee.skills unskilledEmployee)
    (Activity.requiredSkills (exampleActivity TRAINING None None))
  /\ ScoreResult.totalScore
       (calculateEmployeeScore relevantExperienceByType unskilledEmployee
          (exampleActivity TRAINING None None)) == 22.5
  /\ ~ ScoreResult.totalScore
         (calculateEmployeeScore relevantExperienceByType unskilledEmployee
            (exampleActivity TRAINING None None)) == 0.
Proof.
  split; [exact unskilledEmployee_lacks_A|].
  split; [reflexivity | discriminate].
Qed.

(** ** The skill sub-score as a quotient of sums *)

(** C2 (as the code has it): without a missing mandatory skill, the skill
    sub-score is 100 * sum(levelScore * w) / sum(w) where the numerator runs
    over the required skills the employee has and the denominator over all
    required skills, a missing optional skill included; it is 0 when that
    total weight is not positive. *)
Theorem skill_score_divides_by_all_weights
    (employeeSkills : list EmployeeSkill.t)
    (requiredSkills : list ActivitySkill.t) :
  ~ lacksMandatorySkill employeeSkills requiredSkills ->
  calculateSkillMatch employeeSkills requiredSkills
  == (if Qltb 0 (weightOfAll requiredSkills)
      then 100 * weightedLevelSum employeeSkills requiredSkills
           / weightOfAll requiredSkills
      else 0).
Proof.
  intro H. apply (calculateSkillMatch_all_weights _ _ H).
Qed.

Lemma onlySkillA_not_lacking :
  ~ lacksMandatorySkill onlySkillA optionalRequirements.
Proof.
  intros (r & Hin & Hm & _). simpl in Hin.
  destruct Hin as [<- | [<- | []]]; discriminate.
Defined.

Lemma skill_score_divides_by_all_weights_witness :
  calculateSkillMatch onlySkillA optionalRequirements
  == (if Qltb 0 (weightOfAll optionalRequirements)
      then 100 * weightedLevelSum onlySkillA optionalRequirements
           / weightOfAll optionalRequirements
      else 0).
Proof.
  apply (skill_score_divides_by_all_weights onlySkillA optionalRequirements).
  exact onlySkillA_not_lacking.
Defined.

(** C2 (as stated) fails: with A (weight 0.6) held at the required level and
    the optional B (weight 0.4) missing, the code returns 60 where the
    formula that drops B's weight from the denominator gives 100. *)
Lemma missing_optional_weight_counts :
  ~ lacksMandatorySkill onlySkillA optionalRequirements
  /\ calculateSkillMatch onlySkillA optionalRequirements == 60
  /\ skillScoreSpec onlySkillA optionalRequirements == 100
  /\ ~ calculateSkillMatch onlySkillA optionalRequirements
       == skillScoreSpec onlySkillA optionalRequirements.
Proof.
  split; [exact onlySkillA_not_lacking|].
  repeat split; try reflexivity. discriminate.
Qed.

(** ** The end-to-end example *)

(** C7: on the example activity (A mandatory HIGH 0.6, B optional MEDIUM
    0.4, target HIGH) and the example employee (A at EXPERT, B at LOW, five
    years, no history, no skill evolution, overall level EXPERT), whenever
    an empty history yields no relevant experience, the breakdown is
    74 / 25 / 50 / 80 and the total is 61.5. *)
Theorem end_to_end_example
    (History : Type) (rel : list History -> ActivityType -> Q)
    (type : ActivityType) (scoreA scoreB : Q) (minA minB : option Q) :
  rel [] type == 0 ->
  let r := calculateEmployeeScore rel (exampleEmployee scoreA scoreB)
             (exampleActivity type minA minB) in
  let b := ScoreResult.breakdown r in
  Breakdown.skillScore b == 74
  /\ Breakdown.experienceScore b == 25
  /\ Breakdown.progressionScore b == 50
  /\ Breakdown.contextScore b == 80
  /\ ScoreResult.totalScore r == 61.5.
Proof.
  intros Hrel r b.
  assert (Hs : Breakdown.skillScore b == 74) by reflexivity.
  assert (Hp : Breakdown.progressionScore b == 50) by reflexivity.
  assert (Hc : Breakdown.contextScore b == 80) by reflexivity.
  assert (He : Breakdown.experienceScore b == 25).
  { subst b r. simpl.
    unfold calculateExperienceScore, relevantBonus. simpl.
    assert (Hb : Qmin (rel [] type * 10) 50 == 0).
    { rewrite (Qmin_eq_compat (rel [] type * 10) 0 50)
        by (rewrite Hrel; ring).
      reflexivity. }
    rewrite (Qmin_eq_compat _ 25 100)
      by (rewrite Hb; reflexivity).
    reflexivity. }
  repeat split; try assumption.
  change (ScoreResult.totalScore r)
    with (Breakdown.skillScore b * 0.5 + Breakdown.experienceScore b * 0.2
          + Breakdown.progressionScore b * 0.15
          + Breakdown.contextScore b * 0.15).
  rewrite Hs, He, Hp, Hc. reflexivity.
Qed.

Lemma end_to_end_example_witness :
  let r := calculateEmployeeScore relevantExperienceByType
             (exampleEmployee 95 20)
             (exampleActivity TRAINING None (Some 10)) in
  let b := ScoreResult.breakdown r in
  Breakdown.skillScore b == 74
  /\ Breakdown.experienceScore b == 25
  /\ Breakdown.progressionScore b == 50
  /\ Breakdown.contextScore b == 80
  /\ ScoreResult.totalScore r == 61.5.
Proof.
  apply (end_to_end_example HistoryEntry.t relevantExperienceByType
           TRAINING 95 20 None (Some 10)).
  reflexivity.
Defined.

(** ** Range of the scores *)

(** C8 (as the code has it): for requirement weights that are not
    negative, a non-negative number of years and a non-negative relevant
    experience, each of the five scores of the result lies between 0 and
    100. *)
Theorem scores_within_0_100
    (History : Type) (rel : list History -> ActivityType -> Q)
    (employee : Employee.t History) (activity : Activity.t) :
  Forall (fun r => 0 <= ActivitySkill.weight r)
         (Activity.requiredSkills activity) ->
  0 <= Experience.yearsOfExperience (Employee.experience employee) ->
  0 <= rel (Experience.history (Employee.experience employee))
           (Activity.type activity) ->
  let r := calculateEmployeeScore rel employee activity in
  let b := ScoreResult.breakdown r in
  (0 <= Breakdown.skillScore b /\ Breakdown.skillScore b <= 100)
  /\ (0 <= Breakdown.experienceScore b /\ Breakdown.experienceScore b <= 100)
  /\ (0 <= Breakdown.progressionScore b /\ Breakdown.progressionScore b <= 100)
  /\ (0 <= Breakdown.contextScore b /\ Breakdown.contextScore b <= 100)
  /\ (0 <= ScoreResult.totalScore r /\ ScoreResult.totalScore r <= 100).
Proof.
  intros Hw Hy Hr. simpl.
  pose proof (calculateSkillMatch_bounds (Employee.skills employee) _ Hw)
    as [S0 S1].
  pose proof (calculateExperienceScore_nonneg History rel _ _ Hy Hr) as E0.
  pose proof (calculateExperienceScore_le_100 History rel
                (Employee.experience employee) (Activity.type activity)) as E1.
  pose proof (calculateProgressionPotential_bounds
                (Employee.skillEvolution employee)) as [P0 P1].
  pose proof (calculateContextualFit_bounds (Activity.targetLevel activity)
                (Employee.level employee)) as [C0 C1].
  repeat split; try assumption; lra.
Qed.

Lemma scores_within_0_100_witness :
  let r := calculateEmployeeScore relevantExperienceByType juniorEmployee
             mediumActivity in
  let b := ScoreResult.breakdown r in
  (0 <= Breakdown.skillScore b /\ Breakdown.skillScore b <= 100)
  /\ (0 <= Breakdown.experienceScore b /\ Breakdown.experienceScore b <= 100)
  /\ (0 <= Breakdown.progressionScore b /\ Breakdown.progressionScore b <= 100)
  /\ (0 <= Breakdown.contextScore b /\ Breakdown.contextScore b <= 100)
  /\ (0 <= ScoreResult.totalScore r /\ ScoreResult.totalScore r <= 100).
Proof.
  apply (scores_within_0_100 HistoryEntry.t relevantExperienceByType
           juniorEmployee mediumActivity).
  - simpl. repeat constructor. discriminate.
  - simpl. discriminate.
  - simpl. discriminate.
Defined.

(** C8 (as stated) fails: nothing clamps the experience score from below.
    With -2 years of experience it is -10, and with -1000 years the total
    itself is -977.5. *)
Lemma negative_years_leave_the_range :
  Breakdown.experienceScore
    (ScoreResult.breakdown
       (calculateEmployeeScore relevantExperienceByType
          (mkEmployee "employee-6" [] (-2) HIGH)
          (exampleActivity TRAINING None None))) == -10
  /\ ~ 0 <= Breakdown.experienceScore
             (ScoreResult.breakdown
                (calculateEmployeeScore relevantExperienceByType
                   (mkEmployee "employee-6" [] (-2) HIGH)
                   (exampleActivity TRAINING None None)))
  /\ ScoreResult.totalScore
       (calculateEmployeeScore relevantExperienceByType
          (mkEmployee "employee-7" [] (-1000) HIGH)
          (exampleActivity TRAINING None None)) == -977.5
  /\ ~ 0 <= ScoreResult.totalScore
             (calculateEmployeeScore relevantExperienceByType
                (mkEmployee "employee-7" [] (-1000) HIGH)
                (exampleActivity TRAINING None None)).
Proof.
  split; [reflexivity|]. split; [intro H; apply H; reflexivity|].
  split; [reflexivity|]. intro H; apply H; reflexivity.
Qed.

(** ** Skill matching ignores the numeric score fields *)

Lemma findSkill_same_level es1 es2 sid :
  sameSkillLevels es1 es2 ->
  option_map EmployeeSkill.level (findSkill es1 sid)
  = option_map EmployeeSkill.level (findSkill es2 sid).
Proof.
  unfold sameSkillLevels, findSkill.
  revert es2. induction es1 as [|s1 l1 IH]; intros [|s2 l2] H;
    try discriminate; [reflexivity|].
  simpl in H. injection H as Hid Hlv Hrest. simpl. rewrite Hid.
  destruct (String.eqb (EmployeeSkill.skillId s2) sid).
  - simpl. f_equal. exact Hlv.
  - apply IH. exact Hrest.
Qed.

Lemma skillMatchLoop_same es1 es2 rs1 rs2 tw ws :
  sameSkillLevels es1 es2 -> sameUpToMinScore rs1 rs2 ->
  skillMatchLoop es1 rs1 tw ws = skillMatchLoop es2 rs2 tw ws.
Proof.
  intros He. unfold sameUpToMinScore.
  revert rs2 tw ws. induction rs1 as [|r1 l1 IH]; intros [|r2 l2] tw ws H;
    try discriminate; [reflexivity|].
  simpl in H. injection H as Hid Hlv Hw Hm Hrest. simpl.
  pose proof (findSkill_same_level es1 es2 (ActivitySkill.skillId r2) He) as F.
  rewrite Hid, Hlv, Hw, Hm.
  destruct (findSkill es1 (ActivitySkill.skillId r2)) as [s1|],
           (findSkill es2 (ActivitySkill.skillId r2)) as [s2|];
    simpl in F; try discriminate.
  - injection F as ->. apply IH. exact Hrest.
  - destruct (ActivitySkill.isMandatory r2); [reflexivity|].
    apply IH. exact Hrest.
Qed.

(** C9: two skill lists that agree on skill ids and levels, and two
    requirement lists that differ at most in minScore, get the same skill
    sub-score: the numeric score and minScore fields play no part. *)
Theorem skill_match_ignores_scores
    (es1 es2 : list EmployeeSkill.t) (rs1 rs2 : list ActivitySkill.t) :
  sameSkillLevels es1 es2 ->
  sameUpToMinScore rs1 rs2 ->
  calculateSkillMatch es1 rs1 = calculateSkillMatch es2 rs2.
Proof.
  intros He Hr. unfold calculateSkillMatch.
  rewrite (skillMatchLoop_same es1 es2 rs1 rs2 0 0 He Hr). reflexivity.
Qed.

Lemma skill_match_ignores_scores_witness :
  calculateSkillMatch
    (Employee.skills (exampleEmployee (H := HistoryEntry.t) 95 20))
    (Activity.requiredSkills (exampleActivity TRAINING None None))
  = calculateSkillMatch
      (Employee.skills (exampleEmployee (H := HistoryEntry.t) 5 100))
      (Activity.requiredSkills (exampleActivity TRAINING (Some 80) (Some 10))).
Proof.
  apply skill_match_ignores_scores; reflexivity.
Defined.

(** ** Monotonicity and caps of the experience sub-score *)

(** C10: the experience sub-score does not decrease when the years of
    experience grow at equal relevant experience, nor when the relevant
    experience grows at equal years; the base part is at most 50, the bonus
    at most 50 and the score at most 100. *)
Theorem experience_score_monotone_and_capped
    (History : Type) (rel : list History -> ActivityType -> Q)
    (e1 e2 : Experience.t History) (type : ActivityType) :
  (rel (Experience.history e1) type == rel (Experience.history e2) type ->
   Experience.yearsOfExperience e1 <= Experience.yearsOfExperience e2 ->
   calculateExperienceScore rel e1 type <= calculateExperienceScore rel e2 type)
  /\ (Experience.yearsOfExperience e1 == Experience.yearsOfExperience e2 ->
      rel (Experience.history e1) type <= rel (Experience.history e2) type ->
      calculateExperienceScore rel e1 type
      <= calculateExperienceScore rel e2 type)
  /\ baseScore e1 <= 50
  /\ relevantBonus rel e1 type <= 50
  /\ baseScore e1 + relevantBonus rel e1 type <= 100
  /\ calculateExperienceScore rel e1 type <= 100.
Proof.
  pose proof (baseScore_le_50 History e1) as B.
  pose proof (relevantBonus_le_50 History rel e1 type) as R.
  repeat split.
  - intros Hr Hy. apply calculateExperienceScore_mono; lra.
  - intros Hy Hr. apply calculateExperienceScore_mono; lra.
  - exact B.
  - exact R.
  - lra.
  - apply calculateExperienceScore_le_100.
Qed.

Lemma experience_score_monotone_and_capped_witness :
  calculateExperienceScore relevantExperienceByType
    (Experience.mk 3 [HistoryEntry.mk TRAINING 1]) TRAINING
  <= calculateExperienceScore relevantExperienceByType
       (Experience.mk 4 [HistoryEntry.mk TRAINING 1]) TRAINING
  /\ calculateExperienceScore relevantExperienceByType
       (Experience.mk 3 [HistoryEntry.mk TRAINING 1]) TRAINING
     <= calculateExperienceScore relevantExperienceByType
          (Experience.mk 3 [HistoryEntry.mk TRAINING 2]) TRAINING.
Proof.
  destruct (experience_score_monotone_and_capped HistoryEntry.t
              relevantExperienceByType
              (Experience.mk 3 [HistoryEntry.mk TRAINING 1])
              (Experience.mk 4 [HistoryEntry.mk TRAINING 1]) TRAINING)
    as [Hyears _].
  destruct (experience_score_monotone_and_capped HistoryEntry.t
              relevantExperienceByType
              (Experience.mk 3 [HistoryEntry.mk TRAINING 1])
              (Experience.mk 3 [HistoryEntry.mk TRAINING 2]) TRAINING)
    as [_ [Hrel _]].
  split.
  - apply Hyears.
    + reflexivity.
    + simpl. discriminate.
  - apply Hrel.
    + reflexivity.
    + simpl. discriminate.
Defined.

(** ** Seat constraint *)

Lemma slice0_length {A : Type} (l : list A) (n : Z) :
  (0 <= n)%Z ->
  Z.of_nat (length (slice0 l n)) = Z.min n (Z.of_nat (length l)).
Proof.
  intro Hn. unfold slice0.
  destruct (n <? 0)%Z eqn:E; [apply Z.ltb_lt in E; lia|].
  rewrite length_firstn. lia.
Qed.

(** C4 (as the code has it): with 0 <= filledSeats <= availableSeats, the
    list kept by the seat constraint has min(number of candidates,
    availableSeats) elements, hence at most availableSeats, and passes the
    constraint's own validation; filledSeats is not consulted. *)
Theorem seat_constraint_keeps_available_seats
    (C : Type) (candidates : list C) (activity : Activity.t) :
  (0 <= Activity.availableSeats activity)%Z ->
  (0 <= Activity.filledSeats activity <= Activity.availableSeats activity)%Z ->
  Z.of_nat (length (SeatConstraint.apply candidates activity))
  = Z.min (Activity.availableSeats activity) (Z.of_nat (length candidates))
  /\ (Z.of_nat (length (SeatConstraint.apply candidates activity))
      <= Activity.availableSeats activity)%Z
  /\ SeatConstraint.validate (SeatConstraint.apply candidates activity)
       activity = true.
Proof.
  intros Ha _. unfold SeatConstraint.apply, SeatConstraint.validate.
  rewrite (slice0_length candidates _ Ha).
  repeat split; [lia|]. apply Z.leb_le. lia.
Qed.

Lemma seat_constraint_keeps_available_seats_witness :
  Z.of_nat (length (SeatConstraint.apply
                      [candidateA; candidateB; candidateA] mediumActivity))
  = Z.min (Activity.availableSeats mediumActivity) 3
  /\ (Z.of_nat (length (SeatConstraint.apply
                          [candidateA; candidateB; candidateA] mediumActivity))
      <= Activity.availableSeats mediumActivity)%Z
  /\ SeatConstraint.validate
       (SeatConstraint.apply [candidateA; candidateB; candidateA]
          mediumActivity) mediumActivity = true.
Proof.
  apply (seat_constraint_keeps_available_seats Candidate.t
           [candidateA; candidateB; candidateA] mediumActivity).
  - simpl. lia.
  - simpl. lia.
Defined.

(** C4 (as stated) fails: with two seats of which one is filled, three
    candidates are cut down to two, more than the one seat left. *)
Lemma seat_constraint_ignores_filled_seats :
  (0 <= Activity.availableSeats mediumActivity)%Z
  /\ (0 <= Activity.filledSeats mediumActivity
      <= Activity.availableSeats mediumActivity)%Z
  /\ SeatConstraint.apply [candidateA; candidateB; candidateA] mediumActivity
     = [candidateA; candidateB]
  /\ ~ (Z.of_nat (length (SeatConstraint.apply
                            [candidateA; candidateB; candidateA]
                            mediumActivity))
        <= Activity.availableSeats mediumActivity
           - Activity.filledSeats mediumActivity)%Z.
Proof.
  simpl. repeat split; try lia; try reflexivity.
Qed.

(** ** Mandatory-skill constraint *)

Lemma validateLoop_true_iff employeeSkills mandatorySkills :
  MandatorySkillConstraint.validateLoop employeeSkills mandatorySkills = true
  <-> Forall (fun r =>
                exists s,
                  findSkill employeeSkills (ActivitySkill.skillId r) = Some s
                  /\ levelLt (EmployeeSkill.level s)
                             (ActivitySkill.requiredLevel r) = false)
             mandatorySkills.
Proof.
  induction mandatorySkills as [|r rs IH]; simpl.
  - split; [constructor | reflexivity].
  - destruct (findSkill employeeSkills (ActivitySkill.skillId r)) as [s|] eqn:F.
    + destruct (levelLt (EmployeeSkill.level s) (ActivitySkill.requiredLevel r))
        eqn:L.
      * split; [discriminate|]. intro H. inversion H as [|? ? (s' & Hs & Hl) _].
        rewrite F in Hs. injection Hs as <-. congruence.
      * rewrite IH. split.
        -- intro H. constructor; [exists s; auto | exact H].
        -- intro H. inversion H. assumption.
    + split; [discriminate|]. intro H. inversion H as [|? ? (s' & Hs & _) _].
      rewrite F in Hs. discriminate.
Qed.

(** C6 (as the code has it): the constraint passes an employee exactly when
    the skill-match loop does not take its disqualifying exit and, in
    addition, no mandatory skill is held at a level that the constraint's
    comparison puts below the required one. *)
Theorem mandatory_constraint_is_stricter
    (History : Type) (employee : Employee.t History) (activity : Activity.t) :
  MandatorySkillConstraint.validate employee activity = true
  <-> (skillMatchLoop (Employee.skills employee)
         (Activity.requiredSkills activity) 0 0 <> None
       /\ forall required s,
            In required (Activity.requiredSkills activity) ->
            ActivitySkill.isMandatory required = true ->
            findSkill (Employee.skills employee)
              (ActivitySkill.skillId required) = Some s ->
            levelLt (EmployeeSkill.level s)
                    (ActivitySkill.requiredLevel required) = false).
Proof.
  unfold MandatorySkillConstraint.validate.
  rewrite validateLoop_true_iff, Forall_forall, skillMatchLoop_None_iff.
  unfold lacksMandatorySkill. split.
  - intro H. split.
    + intros (r & Hin & Hm & Hf).
      destruct (H r) as (s & Hs & _); [apply filter_In; auto | congruence].
    + intros r s Hin Hm Hs.
      destruct (H r) as (s' & Hs' & Hl); [apply filter_In; auto|].
      congruence.
  - intros [Hno Hlv] r Hr. apply filter_In in Hr as [Hin Hm].
    destruct (findSkill (Employee.skills employee) (ActivitySkill.skillId r))
      as [s|] eqn:F.
    + exists s. split; [reflexivity | eauto].
    + exfalso. apply Hno. exists r. auto.
Qed.

(** C6 (as stated) fails: an employee holding the mandatory skill A at LOW
    where MEDIUM is required is not disqualified by the skill-match loop
    (the skill earns partial credit), yet the constraint rejects the
    employee. *)
Lemma constraint_rejects_underlevelled_skill :
  skillMatchLoop (Employee.skills juniorEmployee)
    (Activity.requiredSkills mediumActivity) 0 0 <> None
  /\ calculateSkillMatch (Employee.skills juniorEmployee)
       (Activity.requiredSkills mediumActivity) == 35
  /\ MandatorySkillConstraint.validate juniorEmployee mediumActivity = false.
Proof.
  repeat split. discriminate.
Qed.

Lemma mandatory_constraint_is_stricter_witness :
  MandatorySkillConstraint.validate matchingEmployee mediumActivity = true.
Proof.
  apply (proj2 (mandatory_constraint_is_stricter HistoryEntry.t
                  matchingEmployee mediumActivity)).
  split.
  - simpl. discriminate.
  - simpl. intros required s [<- | []] _ [= <-]. reflexivity.
Defined.

(** The constraint's comparison orders the level names alphabetically. *)
Lemma levelLt_alphabetical :
  levelLt EXPERT HIGH = true /\ levelLt HIGH LOW = true
  /\ levelLt LOW MEDIUM = true /\ levelLt MEDIUM EXPERT = false.
Proof. repeat split. Qed.

(** Hence an employee holding the mandatory skill at EXPERT is rejected
    where MEDIUM is required, although the skill-match loop gives that
    employee full credit. *)
Lemma constraint_compares_level_names :
  calculateSkillMatch (Employee.skills seniorEmployee)
    (Activity.requiredSkills mediumActivity) == 100
  /\ MandatorySkillConstraint.validate seniorEmployee mediumActivity = false.
Proof. split; reflexivity. Qed.

(** ** Tie-breaking *)

Lemma inject_Z_sub_le_0 (x y : Z) : inject_Z (x - y) <= 0 <-> (x <= y)%Z.
Proof.
  change 0 with (inject_Z 0). rewrite <- Zle_Qle. lia.
Qed.

Lemma tieLe_iff (a b : Candidate.t) : tieLe a b <-> tiePrecedes a b.
Proof.
  unfold tieLe, tieCompare, tiePrecedes.
  destruct (Qeq_bool (Candidate.progressionScore a)
                     (Candidate.progressionScore b)) eqn:P; simpl.
  - apply Qeq_bool_iff in P.
    destruct (Qeq_bool (Candidate.availabilityScore a)
                       (Candidate.availabilityScore b)) eqn:V; simpl.
    + apply Qeq_bool_iff in V. rewrite inject_Z_sub_le_0.
      split.
      * intro H. right. split; [exact P|]. right. split; [exact V | exact H].
      * intros [H | [_ [H | [_ H]]]]; [lra | lra | exact H].
    + apply Qeq_bool_neq in V. split.
      * intro H. right. split; [exact P|]. left.
        apply Qnot_le_lt. intro Hle. apply V. lra.
      * intros [H | [_ [H | [H _]]]]; [lra | lra | contradiction].
  - apply Qeq_bool_neq in P. split.
    + intro H. left. apply Qnot_le_lt. intro Hle. apply P. lra.
    + intros [H | [H _]]; [lra | contradiction].
Qed.

Lemma tiePrecedes_trans (a b c : Candidate.t) :
  tiePrecedes a b -> tiePrecedes b c -> tiePrecedes a c.
Proof.
  unfold tiePrecedes.
  intros [H1 | [E1 [H1 | [F1 H1]]]] [H2 | [E2 [H2 | [F2 H2]]]];
    try (left; lra);
    try (right; split; [lra|]; left; lra).
  right. split; [lra|]. right. split; [lra | lia].
Qed.

Lemma tiePrecedes_total (a b : Candidate.t) :
  tiePrecedes a b \/ tiePrecedes b a.
Proof.
  unfold tiePrecedes.
  destruct (Q_dec (Candidate.progressionScore a) (Candidate.progressionScore b))
    as [[P | P] | P]; [right; left; exact P | left; left; exact P |].
  destruct (Q_dec (Candidate.availabilityScore a)
                  (Candidate.availabilityScore b))
    as [[V | V] | V].
  - right. right. split; [lra|]. left. exact V.
  - left. right. split; [lra|]. left. exact V.
  - destruct (Z.le_ge_cases (Candidate.lastActivityDate a)
                            (Candidate.lastActivityDate b)) as [D | D].
    + left. right. split; [lra|]. right. split; [lra | exact D].
    + right. right. split; [lra|]. right. split; [lra | exact D].
Qed.

Lemma tieEquivb_iff (a b : Candidate.t) :
  tieEquivb a b = true
  <-> Candidate.progressionScore a == Candidate.progressionScore b
      /\ Candidate.availabilityScore a == Candidate.availabilityScore b
      /\ Candidate.lastActivityDate a = Candidate.lastActivityDate b.
Proof.
  unfold tieEquivb.
  rewrite !andb_true_iff, !Qeq_bool_iff, Z.eqb_eq. tauto.
Qed.

Lemma tieEquivb_false_of_gt (z x y : Candidate.t) :
  tieEquivb z x = true -> ~ tieLe x y -> tieEquivb z y = false.
Proof.
  intros Hzx Hgt. destruct (tieEquivb z y) eqn:Hzy; [|reflexivity].
  exfalso. apply Hgt. apply tieLe_iff.
  apply tieEquivb_iff in Hzx as (P1 & V1 & D1).
  apply tieEquivb_iff in Hzy as (P2 & V2 & D2).
  right. split; [lra|]. right. split; [lra | lia].
Qed.

Section SortFacts.

Variable A : Type.
Variable compareFn : A -> A -> Q.

Lemma sortInsert_perm (x : A) (l : list A) :
  Permutation (x :: l) (sortInsert compareFn x l).
Proof.
  induction l as [|y l IH]; simpl; [apply Permutation_refl|].
  destruct (Qle_bool (compareFn x y) 0); [apply Permutation_refl|].
  eapply perm_trans; [apply perm_swap|]. apply perm_skip. exact IH.
Qed.

Lemma sort_perm (l : list A) : Permutation l (sort compareFn l).
Proof.
  induction l as [|x l IH]; simpl; [constructor|].
  eapply perm_trans; [apply perm_skip; exact IH | apply sortInsert_perm].
Qed.

Hypothesis compare_trans :
  forall a b c, compareFn a b <= 0 -> compareFn b c <= 0 -> compareFn a c <= 0.
Hypothesis compare_total :
  forall a b, compareFn a b <= 0 \/ compareFn b a <= 0.

Lemma sortInsert_sorted (x : A) (l : list A) :
  StronglySorted (fun a b => compareFn a b <= 0) l ->
  StronglySorted (fun a b => compareFn a b <= 0) (sortInsert compareFn x l).
Proof.
  induction 1 as [|y l Hs IH Hy]; simpl.
  - constructor; constructor.
  - destruct (Qle_bool (compareFn x y) 0) eqn:E.
    + apply Qle_bool_iff in E. constructor.
      * constructor; assumption.
      * constructor; [exact E|].
        eapply Forall_impl; [|exact Hy]. intros z Hz.
        eapply compare_trans; eassumption.
    + assert (Hyx : compareFn y x <= 0).
      { destruct (compare_total x y) as [H | H]; [|exact H].
        apply Qle_bool_iff in H. congruence. }
      constructor; [exact IH|].
      eapply Permutation_Forall; [apply sortInsert_perm|].
      constructor; assumption.
Qed.

Lemma sort_sorted (l : list A) :
  StronglySorted (fun a b => compareFn a b <= 0) (sort compareFn l).
Proof.
  induction l as [|x l IH]; simpl; [constructor|].
  apply sortInsert_sorted. exact IH.
Qed.

End SortFacts.

Lemma sortInsert_filter_equiv (z x : Candidate.t) (l : list Candidate.t) :
  filter (tieEquivb z) (sortInsert tieCompare x l)
  = filter (tieEquivb z) (x :: l).
Proof.
  induction l as [|y l IH]; [reflexivity|].
  simpl sortInsert.
  destruct (Qle_bool (tieCompare x y) 0) eqn:E; [reflexivity|].
  assert (Hgt : ~ tieLe x y).
  { intro H. apply Qle_bool_iff in H. congruence. }
  simpl in *. rewrite IH.
  destruct (tieEquivb z x) eqn:Hx; [|reflexivity].
  rewrite (tieEquivb_false_of_gt z x y Hx Hgt). reflexivity.
Qed.

Lemma breakTies_stable (z : Candidate.t) (l : list Candidate.t) :
  filter (tieEquivb z) (breakTies l) = filter (tieEquivb z) l.
Proof.
  unfold breakTies, sort.
  induction l as [|x l IH]; [reflexivity|].
  simpl fold_right. rewrite sortInsert_filter_equiv.
  simpl. rewrite IH. reflexivity.
Qed.

Lemma StronglySorted_equiv {A : Type} (R S : A -> A -> Prop) (l : list A) :
  (forall a b, R a b <-> S a b) -> StronglySorted R l -> StronglySorted S l.
Proof.
  intros HRS. induction 1 as [|x l _ IH Hx]; constructor; [exact IH|].
  eapply Forall_impl; [|exact Hx]. intros b Hb. apply HRS. exact Hb.
Qed.

(** C5 (as the code has it): breakTies returns the candidates it was given,
    ordered by higher progressionScore, then higher availabilityScore, then
    older lastActivityDate; candidates equal on these three keys keep the
    order they had in the input.  Neither the total score, nor contextScore,
    nor the candidate id is consulted. *)
Theorem breakTies_sorts_by_progression_availability_date
    (candidates : list Candidate.t) :
  Permutation candidates (breakTies candidates)
  /\ StronglySorted tiePrecedes (breakTies candidates)
  /\ forall z, filter (tieEquivb z) (breakTies candidates)
               = filter (tieEquivb z) candidates.
Proof.
  split; [apply sort_perm|]. split; [|intro z; apply breakTies_stable].
  apply (StronglySorted_equiv tieLe tiePrecedes _ tieLe_iff).
  apply sort_sorted.
  - intros a b c Hab Hbc. apply tieLe_iff.
    apply (tiePrecedes_trans a b c); apply tieLe_iff; assumption.
  - intros a b.
    destruct (tiePrecedes_total a b) as [H | H]; [left | right];
      apply tieLe_iff; exact H.
Qed.

(** C5 (as stated) fails: of two candidates with equal total and
    progression scores, the specification's order puts the one with the
    higher contextScore first, while breakTies puts the one with the higher
    availabilityScore first. *)
Lemma breakTies_uses_availability_not_context :
  Qabs (Candidate.totalScore candidateA - Candidate.totalScore candidateB)
  < 1 / 1000000
  /\ specTieBefore candidateA candidateB = true
  /\ specTieBefore candidateB candidateA = false
  /\ breakTies [candidateA; candidateB] = [candidateB; candidateA].
Proof.
  repeat split.
Qed.

(** ** Multi-objective optimisation *)

Section ParetoFacts.

Variable E : Type.
Variable activity : Activity.t.
Variable objectives : list (Objective.t E).

(** Whatever [isDominated] computes, the loop only ever appends to the
    front it was given: no member is removed once it is in. *)
Lemma multiObjectiveLoop_extends
    (isDominated : list Q -> list (FrontEntry.t E) -> bool)
    (employees : list E) (front : list (FrontEntry.t E)) :
  exists added,
    multiObjectiveLoop isDominated employees activity objectives front
    = front ++ added.
Proof.
  revert front. induction employees as [|e l IH]; intro front; simpl.
  - exists []. symmetry. apply app_nil_r.
  - destruct (isDominated _ front).
    + apply IH.
    + destruct (IH (front
                    ++ [FrontEntry.mk e (scoresOf activity objectives e)]))
        as [added H].
      exists (FrontEntry.mk e (scoresOf activity objectives e) :: added).
      unfold scoresOf in H. rewrite H, <- app_assoc. reflexivity.
Qed.

(** The first employee, when an empty front does not dominate it, enters
    the front and stays at its head, whoever comes later. *)
Lemma first_employee_stays
    (isDominated : list Q -> list (FrontEntry.t E) -> bool)
    (e : E) (rest : list E) :
  isDominated (scoresOf activity objectives e) [] = false ->
  exists added,
    multiObjectiveOptimize isDominated (e :: rest) activity objectives
    = FrontEntry.mk e (scoresOf activity objectives e) :: added.
Proof.
  intro H0. unfold multiObjectiveOptimize. simpl.
  change (map (fun obj => Objective.calculate obj e activity) objectives)
    with (scoresOf activity objectives e).
  rewrite H0.
  destruct (multiObjectiveLoop_extends isDominated rest
              [FrontEntry.mk e (scoresOf activity objectives e)]) as [added H].
  exists added. exact H.
Qed.

(** Every employee is either in the returned front or dominated by one of
    its members. *)
Lemma paretoFront_covers (employees : list E) (e : E) :
  In e employees ->
  In (FrontEntry.mk e (scoresOf activity objectives e))
     (paretoFront employees activity objectives)
  \/ dominatedByFront (scoresOf activity objectives e)
       (paretoFront employees activity objectives) = true.
Proof.
  unfold paretoFront, multiObjectiveOptimize.
  generalize (@nil (FrontEntry.t E)) as front.
  induction employees as [|x l IH]; intros front []; simpl.
  - subst x.
    change (map (fun obj => Objective.calculate obj e activity) objectives)
      with (scoresOf activity objectives e).
    destruct (dominatedByFront (scoresOf activity objectives e) front) eqn:D.
    + right.
      destruct (multiObjectiveLoop_extends dominatedByFront l front)
        as [added ->].
      unfold dominatedByFront in *. rewrite existsb_app, D. reflexivity.
    + left.
      destruct (multiObjectiveLoop_extends dominatedByFront l
                  (front ++ [FrontEntry.mk e (scoresOf activity objectives e)]))
        as [added ->].
      apply in_or_app. left. apply in_or_app. right. left. reflexivity.
  - destruct (dominatedByFront _ front); apply IH; assumption.
Qed.

End ParetoFacts.

(** C3 (evaluation of the code): for two employees scored by one objective
    as 1 and 2, the returned front holds both, although the second
    dominates the first. *)
Theorem pareto_front_keeps_dominated_member :
  paretoFront [juniorEmployee; seniorEmployee] mediumActivity
    [experienceObjective]
  = [ FrontEntry.mk juniorEmployee [1]; FrontEntry.mk seniorEmployee [2] ]
  /\ dominates [2] [1] = true
  /\ dominatedByFront [1]
       (paretoFront [juniorEmployee; seniorEmployee] mediumActivity
          [experienceObjective]) = true.
Proof.
  repeat split.
Qed.

(** * Further properties of the scoring algorithms *)

(** ** Level match *)

(** X1: a level at or above the requirement scores exactly 1; a level below
    it earns a partial credit between 0.175 and 0.525. *)
Theorem levelMatch_full_or_partial (e r : SkillLevel) :
  ((levelMap r <= levelMap e)%Z /\ calculateLevelMatch e r = 1)
  \/ ((levelMap e < levelMap r)%Z
      /\ 0.175 <= calculateLevelMatch e r
      /\ calculateLevelMatch e r <= 0.525).
Proof.
  destruct e, r;
    first [ left; split; [vm_compute; discriminate | reflexivity]
          | right; split; [reflexivity |];
            split; vm_compute; discriminate ].
Qed.

(** X2: the level match does not decrease when the employee's level rises,
    and does not increase when the required level rises. *)
Theorem levelMatch_monotone (e1 e2 r1 r2 : SkillLevel) :
  (levelMap e1 <= levelMap e2)%Z ->
  (levelMap r1 <= levelMap r2)%Z ->
  calculateLevelMatch e1 r2 <= calculateLevelMatch e2 r1.
Proof.
  destruct e1, e2, r1, r2; intros He Hr;
    solve [ vm_compute; discriminate
          | exfalso; apply He; reflexivity
          | exfalso; apply Hr; reflexivity ].
Qed.

Lemma levelMatch_monotone_witness :
  calculateLevelMatch LOW EXPERT <= calculateLevelMatch MEDIUM HIGH.
Proof.
  apply (levelMatch_monotone LOW MEDIUM HIGH EXPERT).
  - simpl. lia.
  - simpl. lia.
Defined.

(** ** Contextual fit *)

(** X3: the contextual fit is symmetric in the two levels, and it is 100
    only when the employee's level is the target level. *)
Theorem contextualFit_symmetric (t e : SkillLevel) :
  calculateContextualFit t e = calculateContextualFit e t
  /\ (calculateContextualFit t e == 100 -> t = e).
Proof.
  destruct t, e; split; try reflexivity; intro H; try reflexivity;
    vm_compute in H; discriminate.
Qed.

Lemma contextualFit_symmetric_witness :
  calculateContextualFit HIGH LOW = calculateContextualFit LOW HIGH
  /\ EXPERT = EXPERT.
Proof.
  destruct (contextualFit_symmetric HIGH LOW) as [Hsym _].
  destruct (contextualFit_symmetric EXPERT EXPERT) as [_ Heq].
  split; [exact Hsym | apply Heq; reflexivity].
Defined.

(** ** Progression potential *)

Lemma sliceLast5_app {A : Type} (older recent : list A) :
  length recent = 5%nat -> sliceLast5 (older ++ recent) = recent.
Proof.
  intro H. unfold sliceLast5.
  rewrite length_app, H.
  replace (length older + 5 - 5)%nat with (length older + 0)%nat by lia.
  rewrite skipn_app, Nat.add_comm.
  replace (0 + length older - length older)%nat with 0%nat by lia.
  rewrite skipn_all2 by lia. reflexivity.
Qed.

Lemma sliceLast5_short {A : Type} (l : list A) :
  (length l <= 5)%nat -> sliceLast5 l = l.
Proof.
  intro H. unfold sliceLast5.
  replace (length l - 5)%nat with 0%nat by lia. reflexivity.
Qed.

Lemma sliceLast5_length {A : Type} (l : list A) :
  length (sliceLast5 l) = Nat.min (length l) 5.
Proof. unfold sliceLast5. rewrite length_skipn. lia. Qed.

Lemma sliceLast5_Forall {A : Type} (P : A -> Prop) (l : list A) :
  Forall P l -> Forall P (sliceLast5 l).
Proof.
  intro H. unfold sliceLast5. apply Forall_forall. intros x Hx.
  rewrite Forall_forall in H. apply H.
  rewrite <- (firstn_skipn (length l - 5) l).
  apply in_or_app. right. exact Hx.
Qed.

(** X4: only the last five evolutions count: whatever precedes five recent
    evolutions does not change the progression potential. *)
Theorem progression_uses_last_five
    (older recent : list SkillEvolution.t) :
  length recent = 5%nat ->
  calculateProgressionPotential (older ++ recent)
  = calculateProgressionPotential recent.
Proof.
  intro H. unfold calculateProgressionPotential.
  rewrite (sliceLast5_app older recent H).
  rewrite (sliceLast5_short recent) by lia.
  destruct recent as [|r0 rs]; [discriminate|].
  destruct (older ++ r0 :: rs) eqn:E; [|reflexivity].
  destruct older; discriminate.
Qed.

Lemma progression_uses_last_five_witness :
  calculateProgressionPotential
    ([SkillEvolution.mk 90 10; SkillEvolution.mk 80 5]
     ++ [SkillEvolution.mk 10 20; SkillEvolution.mk 20 30;
         SkillEvolution.mk 30 40; SkillEvolution.mk 40 50;
         SkillEvolution.mk 50 60])
  = calculateProgressionPotential
      [SkillEvolution.mk 10 20; SkillEvolution.mk 20 30;
       SkillEvolution.mk 30 40; SkillEvolution.mk 40 50;
       SkillEvolution.mk 50 60].
Proof.
  apply (progression_uses_last_five
           [SkillEvolution.mk 90 10; SkillEvolution.mk 80 5]).
  reflexivity.
Defined.

(** The loop adds up the improvements onto its accumulator. *)
Lemma totalImprovement_sum (l : list SkillEvolution.t) (acc : Q) :
  fold_left
    (fun total evolution =>
       total + (SkillEvolution.newScore evolution
                - SkillEvolution.previousScore evolution)) l acc
  == acc + sumQ (map improvement l).
Proof.
  revert acc. induction l as [|e l IH]; intro acc; simpl.
  - ring.
  - rewrite IH. unfold improvement. ring.
Qed.

Lemma sumQ_ge (lo : Q) (l : list Q) :
  Forall (fun x => lo <= x) l ->
  lo * inject_Z (Z.of_nat (length l)) <= sumQ l.
Proof.
  induction 1 as [|x l Hlo _ IH].
  - simpl. change (inject_Z 0) with 0. lra.
  - cbn [length sumQ fold_right]. rewrite Nat2Z.inj_succ.
    unfold Z.succ. rewrite inject_Z_plus.
    change (fold_right Qplus 0 l) with (sumQ l).
    change (inject_Z 1) with 1. lra.
Qed.

Lemma sumQ_le (hi : Q) (l : list Q) :
  Forall (fun x => x <= hi) l ->
  sumQ l <= hi * inject_Z (Z.of_nat (length l)).
Proof.
  induction 1 as [|x l Hhi _ IH].
  - simpl. change (inject_Z 0) with 0. lra.
  - cbn [length sumQ fold_right]. rewrite Nat2Z.inj_succ.
    unfold Z.succ. rewrite inject_Z_plus.
    change (fold_right Qplus 0 l) with (sumQ l).
    change (inject_Z 1) with 1. lra.
Qed.

(** The average that calculateProgressionPotential takes, for a non-empty
    list: the sum of the recent improvements over their number. *)
Lemma progression_average (e0 : SkillEvolution.t) (l0 : list SkillEvolution.t) :
  let recent := sliceLast5 (e0 :: l0) in
  let n := inject_Z (Z.of_nat (length recent)) in
  0 < n
  /\ calculateProgressionPotential (e0 :: l0)
     == Qmin (Qmax (50 + sumQ (map improvement recent) / n * 2) 0) 100.
Proof.
  intros recent n.
  assert (Hn : 0 < n).
  { unfold n, recent. rewrite sliceLast5_length.
    change 0 with (inject_Z 0). rewrite <- Zlt_Qlt. simpl. lia. }
  split; [exact Hn|].
  unfold calculateProgressionPotential. fold recent. fold n.
  pose proof (totalImprovement_sum recent 0) as Hsum.
  apply Qle_antisym;
    apply Q.min_le_compat_r; apply Q.max_le_compat_r;
    apply Qplus_le_r; apply Qmult_le_compat_r; try lra;
    apply Qmult_le_compat_r;
    try (apply Qlt_le_weak, Qinv_lt_0_compat; exact Hn); lra.
Qed.

(** A lower bound on every improvement bounds the potential from below. *)
Lemma progression_lower (lo : Q) (l : list SkillEvolution.t) :
  l <> [] ->
  Forall (fun ev => lo <= improvement ev) l ->
  Qmin (Qmax (50 + lo * 2) 0) 100 <= calculateProgressionPotential l.
Proof.
  intros Hne Hall. destruct l as [|e0 l0]; [congruence|].
  destruct (progression_average e0 l0) as [Hn ->].
  set (recent := sliceLast5 (e0 :: l0)) in *.
  assert (Hrec : Forall (fun x => lo <= x) (map improvement recent)).
  { apply Forall_map. apply sliceLast5_Forall. exact Hall. }
  apply sumQ_ge in Hrec. rewrite length_map in Hrec.
  set (n := inject_Z (Z.of_nat (length recent))) in *.
  assert (Hlo : lo <= sumQ (map improvement recent) / n)
    by (apply Qle_shift_div_l; [exact Hn | lra]).
  apply Q.min_le_compat_r. apply Q.max_le_compat_r. lra.
Qed.

(** An upper bound on every improvement bounds the potential from above. *)
Lemma progression_upper (hi : Q) (l : list SkillEvolution.t) :
  l <> [] ->
  Forall (fun ev => improvement ev <= hi) l ->
  calculateProgressionPotential l <= Qmin (Qmax (50 + hi * 2) 0) 100.
Proof.
  intros Hne Hall. destruct l as [|e0 l0]; [congruence|].
  destruct (progression_average e0 l0) as [Hn ->].
  set (recent := sliceLast5 (e0 :: l0)) in *.
  assert (Hrec : Forall (fun x => x <= hi) (map improvement recent)).
  { apply Forall_map. apply sliceLast5_Forall. exact Hall. }
  apply sumQ_le in Hrec. rewrite length_map in Hrec.
  set (n := inject_Z (Z.of_nat (length recent))) in *.
  assert (Hhi : sumQ (map improvement recent) / n <= hi)
    by (apply Qle_shift_div_r; [exact Hn | lra]).
  apply Q.min_le_compat_r. apply Q.max_le_compat_r. lra.
Qed.

(** X5: when none of the recorded evolutions is a decline the progression
    potential is at least the neutral 50; when none is an improvement it is
    at most 50. *)
Theorem progression_follows_trend (l : list SkillEvolution.t) :
  (Forall (fun ev => SkillEvolution.previousScore ev
                     <= SkillEvolution.newScore ev) l ->
   50 <= calculateProgressionPotential l)
  /\ (Forall (fun ev => SkillEvolution.newScore ev
                        <= SkillEvolution.previousScore ev) l ->
      calculateProgressionPotential l <= 50).
Proof.
  destruct l as [|e0 l0]; [split; intros _; apply Qle_refl|].
  split; intro H.
  - apply (Qle_trans _ (Qmin (Qmax (50 + 0 * 2) 0) 100));
      [vm_compute; discriminate|].
    apply progression_lower; [discriminate|].
    eapply Forall_impl; [|exact H]. intros ev Hev. cbv beta in Hev |- *.
    unfold improvement. lra.
  - apply (Qle_trans _ (Qmin (Qmax (50 + 0 * 2) 0) 100));
      [|vm_compute; discriminate].
    apply progression_upper; [discriminate|].
    eapply Forall_impl; [|exact H]. intros ev Hev. cbv beta in Hev |- *.
    unfold improvement. lra.
Qed.

Lemma progression_follows_trend_witness :
  50 <= calculateProgressionPotential
          [SkillEvolution.mk 40 55; SkillEvolution.mk 55 55]
  /\ calculateProgressionPotential
       [SkillEvolution.mk 60 50; SkillEvolution.mk 50 45] <= 50.
Proof.
  destruct (progression_follows_trend
              [SkillEvolution.mk 40 55; SkillEvolution.mk 55 55])
    as [Hup _].
  destruct (progression_follows_trend
              [SkillEvolution.mk 60 50; SkillEvolution.mk 50 45])
    as [_ Hdown].
  split.
  - apply Hup. repeat constructor; simpl; discriminate.
  - apply Hdown. repeat constructor; simpl; discriminate.
Defined.

(** ** Skill match *)

Lemma calculateLevelMatch_met (e r : SkillLevel) :
  (levelMap r <= levelMap e)%Z -> calculateLevelMatch e r = 1.
Proof.
  intro H. unfold calculateLevelMatch.
  apply Z.leb_le in H. rewrite H. reflexivity.
Qed.

Lemma meetsRequirement_not_lacking employeeSkills requiredSkills :
  Forall (meetsRequirement employeeSkills) requiredSkills ->
  ~ lacksMandatorySkill employeeSkills requiredSkills.
Proof.
  intros H (r & Hin & _ & Hf).
  rewrite Forall_forall in H. destruct (H r Hin) as (s & Hs & _).
  congruence.
Qed.

Lemma meetsRequirement_sum employeeSkills requiredSkills :
  Forall (meetsRequirement employeeSkills) requiredSkills ->
  weightedLevelSum employeeSkills requiredSkills == weightOfAll requiredSkills.
Proof.
  unfold weightedLevelSum, weightOfAll.
  induction 1 as [|r rs (s & Hs & Hl) _ IH]; simpl; [reflexivity|].
  rewrite Hs, (calculateLevelMatch_met _ _ Hl), IH. ring.
Qed.

(** X6: an employee who holds every required skill at or above its required
    level gets the full skill score of 100, whatever the (positive in total)
    weights are. *)
Theorem skill_match_full_marks
    (employeeSkills : list EmployeeSkill.t)
    (requiredSkills : list ActivitySkill.t) :
  Forall (meetsRequirement employeeSkills) requiredSkills ->
  0 < weightOfAll requiredSkills ->
  calculateSkillMatch employeeSkills requiredSkills == 100.
Proof.
  intros Hall Hpos.
  rewrite (calculateSkillMatch_all_weights _ _
             (meetsRequirement_not_lacking _ _ Hall)).
  unfold skillScoreAllWeights.
  apply Qltb_lt in Hpos as Hb. rewrite Hb.
  rewrite (meetsRequirement_sum _ _ Hall). field. lra.
Qed.

Lemma skill_match_full_marks_witness :
  calculateSkillMatch
    [EmployeeSkill.mk "A" EXPERT 90; EmployeeSkill.mk "B" MEDIUM 50]
    (Activity.requiredSkills (exampleActivity TRAINING None None))
  == 100.
Proof.
  apply skill_match_full_marks.
  - repeat constructor.
    + exists (EmployeeSkill.mk "A" EXPERT 90). split; [reflexivity|].
      simpl. lia.
    + exists (EmployeeSkill.mk "B" MEDIUM 50). split; [reflexivity|].
      simpl. lia.
  - reflexivity.
Defined.

(** ** Composite score of a disqualified employee *)

(** X9: an employee who lacks a mandatory skill is not scored 0 overall: with
    non-negative years and relevant experience the total lies between 3
    and 50. *)
Theorem disqualified_total_between_3_and_50
    (History : Type) (rel : list History -> ActivityType -> Q)
    (employee : Employee.t History) (activity : Activity.t) :
  lacksMandatorySkill (Employee.skills employee)
                      (Activity.requiredSkills activity) ->
  0 <= Experience.yearsOfExperience (Employee.experience employee) ->
  0 <= rel (Experience.history (Employee.experience employee))
           (Activity.type activity) ->
  3 <= ScoreResult.totalScore (calculateEmployeeScore rel employee activity)
  /\ ScoreResult.totalScore (calculateEmployeeScore rel employee activity)
     <= 50.
Proof.
  intros Hlack Hy Hr. simpl.
  rewrite (calculateSkillMatch_lacking _ _ Hlack).
  pose proof (calculateExperienceScore_nonneg History rel _ _ Hy Hr) as E0.
  pose proof (calculateExperienceScore_le_100 History rel
                (Employee.experience employee) (Activity.type activity)) as E1.
  pose proof (calculateProgressionPotential_bounds
                (Employee.skillEvolution employee)) as [P0 P1].
  pose proof (calculateContextualFit_bounds (Activity.targetLevel activity)
                (Employee.level employee)) as [C0 C1].
  split; lra.
Qed.

Lemma disqualified_total_between_3_and_50_witness :
  3 <= ScoreResult.totalScore
         (calculateEmployeeScore relevantExperienceByType unskilledEmployee
            (exampleActivity TRAINING None None))
  /\ ScoreResult.totalScore
       (calculateEmployeeScore relevantExperienceByType unskilledEmployee
          (exampleActivity TRAINING None None)) <= 50.
Proof.
  apply (disqualified_total_between_3_and_50 HistoryEntry.t
           relevantExperienceByType unskilledEmployee
           (exampleActivity TRAINING None None)).
  - exists (ActivitySkill.mk "A" HIGH 0.6 true None). simpl. auto.
  - simpl. discriminate.
  - simpl. discriminate.
Defined.

(** ** Experience without relevant history *)

(** X10: without relevant experience the experience score is the base part
    alone, at most 50 however many years the employee has; from ten years on
    it is exactly 50. *)
Theorem experience_without_relevant_history
    (History : Type) (rel : list History -> ActivityType -> Q)
    (e : Experience.t History) (type : ActivityType) :
  rel (Experience.history e) type == 0 ->
  calculateExperienceScore rel e type == baseScore e
  /\ calculateExperienceScore rel e type <= 50
  /\ (10 <= Experience.yearsOfExperience e ->
      calculateExperienceScore rel e type == 50).
Proof.
  intro Hrel.
  assert (Hb : relevantBonus rel e type == 0).
  { unfold relevantBonus.
    rewrite (Qmin_eq_compat _ 0 50) by (rewrite Hrel; ring).
    reflexivity. }
  pose proof (baseScore_le_50 History e) as B.
  assert (Hs : calculateExperienceScore rel e type == baseScore e).
  { unfold calculateExperienceScore.
    rewrite (Qmin_eq_compat _ (baseScore e) 100) by (rewrite Hb; ring).
    apply Q.min_l. lra. }
  split; [exact Hs|]. split; [rewrite Hs; exact B|].
  intro Hy. rewrite Hs. unfold baseScore. apply Q.min_r. lra.
Qed.

Lemma experience_without_relevant_history_witness :
  calculateExperienceScore relevantExperienceByType
    (Experience.mk 25 [HistoryEntry.mk PROJECT 4]) TRAINING == 50.
Proof.
  destruct (experience_without_relevant_history HistoryEntry.t
              relevantExperienceByType
              (Experience.mk 25 [HistoryEntry.mk PROJECT 4]) TRAINING)
    as (_ & _ & H).
  - reflexivity.
  - apply H. simpl. discriminate.
Defined.

(** * Further properties of the optimisation module *)

(** ** Seat constraint *)

(** X11: the seat constraint keeps a prefix of the ranked candidates, in
    their order, and leaves the list unchanged when there are at least as
    many seats as candidates. *)
Theorem seat_constraint_keeps_prefix
    (C : Type) (candidates : list C) (activity : Activity.t) :
  (exists dropped,
     candidates = SeatConstraint.apply candidates activity ++ dropped)
  /\ ((Z.of_nat (length candidates) <= Activity.availableSeats activity)%Z ->
      SeatConstraint.apply candidates activity = candidates).
Proof.
  unfold SeatConstraint.apply, slice0. split.
  - eexists. symmetry. apply firstn_skipn.
  - intro H.
    destruct (Activity.availableSeats activity <? 0)%Z eqn:E;
      [apply Z.ltb_lt in E; lia|].
    apply firstn_all2. lia.
Qed.

Lemma seat_constraint_keeps_prefix_witness :
  SeatConstraint.apply [candidateA; candidateB] mediumActivity
  = [candidateA; candidateB].
Proof.
  destruct (seat_constraint_keeps_prefix Candidate.t
              [candidateA; candidateB] mediumActivity) as [_ H].
  apply H. simpl. lia.
Defined.

(** X12: the list the seat constraint produces passes the constraint's own
    validation exactly when availableSeats is not negative; for a negative
    availableSeats, -k, the last k candidates are dropped instead. *)
Theorem seat_constraint_validates_iff_nonnegative
    (C : Type) (candidates : list C) (activity : Activity.t) :
  (SeatConstraint.validate (SeatConstraint.apply candidates activity) activity
   = true <-> (0 <= Activity.availableSeats activity)%Z)
  /\ ((Activity.availableSeats activity < 0)%Z ->
      Z.of_nat (length (SeatConstraint.apply candidates activity))
      = Z.max (Z.of_nat (length candidates)
               + Activity.availableSeats activity) 0).
Proof.
  unfold SeatConstraint.validate, SeatConstraint.apply, slice0.
  destruct (Activity.availableSeats activity <? 0)%Z eqn:E.
  - apply Z.ltb_lt in E. rewrite length_firstn. split.
    + rewrite Z.leb_le. lia.
    + intros _. lia.
  - apply Z.ltb_ge in E. rewrite length_firstn. split.
    + rewrite Z.leb_le. lia.
    + lia.
Qed.

Lemma seat_constraint_validates_iff_nonnegative_witness :
  SeatConstraint.validate
    (SeatConstraint.apply [candidateA; candidateB; candidateA] mediumActivity)
    mediumActivity = true
  /\ Z.of_nat (length (SeatConstraint.apply [candidateA; candidateB; candidateA]
                         (Activity.mk "a" TRAINING LOW [] (-1) 0)))
     = 2%Z.
Proof.
  destruct (seat_constraint_validates_iff_nonnegative Candidate.t
              [candidateA; candidateB; candidateA] mediumActivity) as [Hv _].
  destruct (seat_constraint_validates_iff_nonnegative Candidate.t
              [candidateA; candidateB; candidateA]
              (Activity.mk "a" TRAINING LOW [] (-1) 0)) as [_ Hn].
  split.
  - apply Hv. simpl. lia.
  - apply Hn. simpl. lia.
Defined.

(** ** Mandatory-skill constraint and skill score together *)






(** ** Tie-breaking once more *)

Lemma sort_of_sorted {A : Type} (compareFn : A -> A -> Q) (l : list A) :
  StronglySorted (fun a b => compareFn a b <= 0) l ->
  sort compareFn l = l.
Proof.
  induction 1 as [|x l Hs IH Hx]; [reflexivity|].
  change (sort compareFn (x :: l))
    with (sortInsert compareFn x (sort compareFn l)).
  rewrite IH.
  destruct l as [|y l']; [reflexivity|].
  simpl. inversion Hx as [|? ? Hxy _]; subst.
  apply Qle_bool_iff in Hxy. rewrite Hxy. reflexivity.
Qed.

Lemma breakTies_sorted_tieLe (l : list Candidate.t) :
  StronglySorted tieLe (breakTies l).
Proof.
  apply sort_sorted.
  - intros a b c Hab Hbc. apply tieLe_iff.
    apply (tiePrecedes_trans a b c); apply tieLe_iff; assumption.
  - intros a b.
    destruct (tiePrecedes_total a b) as [H | H]; [left | right];
      apply tieLe_iff; exact H.
Qed.

(** X14: breaking ties twice changes nothing: the order breakTies produces
    is left as it is by a second pass, and so is any list that is already
    in that order. *)
Theorem breakTies_idempotent (candidates : list Candidate.t) :
  breakTies (breakTies candidates) = breakTies candidates
  /\ (StronglySorted tiePrecedes candidates ->
      breakTies candidates = candidates).
Proof.
  split.
  - apply sort_of_sorted. apply breakTies_sorted_tieLe.
  - intro H. apply sort_of_sorted.
    apply (StronglySorted_equiv tiePrecedes tieLe); [|exact H].
    intros a b. symmetry. apply tieLe_iff.
Qed.

Lemma breakTies_idempotent_witness :
  breakTies [candidateB; candidateA] = [candidateB; candidateA].
Proof.
  destruct (breakTies_idempotent [candidateB; candidateA]) as [_ H].
  apply H.
  apply SSorted_cons;
    [apply SSorted_cons; [apply SSorted_nil | apply Forall_nil]|].
  apply Forall_cons; [|apply Forall_nil].
  right. split; [reflexivity|]. left. reflexivity.
Defined.

(** ** Multi-objective optimisation once more *)

(** X15: nobody is lost without a reason: every employee handed to the
    optimisation is either a member of the returned front or dominated by a
    member of it. *)
Theorem pareto_front_covers_every_employee
    (E : Type) (activity : Activity.t) (objectives : list (Objective.t E))
    (employees : list E) (e : E) :
  In e employees ->
  In (FrontEntry.mk e (scoresOf activity objectives e))
     (paretoFront employees activity objectives)
  \/ dominatedByFront (scoresOf activity objectives e)
       (paretoFront employees activity objectives) = true.
Proof.
  apply paretoFront_covers.
Qed.

Lemma pareto_front_covers_every_employee_witness :
  In (FrontEntry.mk juniorEmployee
        (scoresOf mediumActivity [experienceObjective] juniorEmployee))
     (paretoFront [seniorEmployee; juniorEmployee] mediumActivity
        [experienceObjective])
  \/ dominatedByFront
       (scoresOf mediumActivity [experienceObjective] juniorEmployee)
       (paretoFront [seniorEmployee; juniorEmployee] mediumActivity
          [experienceObjective]) = true.
Proof.
  apply (pareto_front_covers_every_employee _ mediumActivity
           [experienceObjective] [seniorEmployee; juniorEmployee]
           juniorEmployee).
  simpl. auto.
Defined.

Lemma multiObjectiveLoop_app {E : Type}
    (isDominated : list Q -> list (FrontEntry.t E) -> bool)
    (activity : Activity.t) (objectives : list (Objective.t E))
    (first later : list E) (front : list (FrontEntry.t E)) :
  multiObjectiveLoop isDominated (first ++ later) activity objectives front
  = multiObjectiveLoop isDominated later activity objectives
      (multiObjectiveLoop isDominated first activity objectives front).
Proof.
  revert front. induction first as [|e l IH]; intro front; simpl;
    [reflexivity|].
  destruct (isDominated _ front); apply IH.
Qed.

Lemma undominatedByEarlier_push {E : Type} (front : list (FrontEntry.t E))
    (m : FrontEntry.t E) :
  undominatedByEarlier front ->
  dominatedByFront (FrontEntry.scores m) front = false ->
  undominatedByEarlier (front ++ [m]).
Proof.
  intros Hf Hm i x Hx.
  destruct (Nat.lt_ge_cases i (length front)) as [Hi | Hi].
  - rewrite nth_error_app1 in Hx by exact Hi.
    rewrite firstn_app.
    replace (i - length front)%nat with 0%nat by lia.
    simpl. rewrite app_nil_r. apply Hf. exact Hx.
  - rewrite nth_error_app2 in Hx by exact Hi.
    destruct (i - length front)%nat as [|k] eqn:Ek.
    + simpl in Hx. injection Hx as <-.
      rewrite firstn_app, Ek. simpl. rewrite app_nil_r.
      rewrite firstn_all2 by lia. exact Hm.
    + simpl in Hx. destruct k; discriminate.
Qed.

Lemma multiObjectiveLoop_undominated {E : Type}
    (activity : Activity.t) (objectives : list (Objective.t E))
    (employees : list E) (front : list (FrontEntry.t E)) :
  undominatedByEarlier front ->
  undominatedByEarlier
    (multiObjectiveLoop dominatedByFront employees activity objectives front).
Proof.
  revert front. induction employees as [|e l IH]; intros front Hf; simpl;
    [exact Hf|].
  destruct (dominatedByFront _ front) eqn:D.
  - apply IH. exact Hf.
  - apply IH. apply undominatedByEarlier_push; [exact Hf | exact D].
Qed.

(** X16: no member of the returned front is dominated by a member that
    stands before it in the front. *)
Theorem pareto_front_member_not_dominated_by_earlier
    (E : Type) (activity : Activity.t) (objectives : list (Objective.t E))
    (employees : list E) (i : nat) (m : FrontEntry.t E) :
  nth_error (paretoFront employees activity objectives) i = Some m ->
  dominatedByFront (FrontEntry.scores m)
    (firstn i (paretoFront employees activity objectives)) = false.
Proof.
  apply (multiObjectiveLoop_undominated activity objectives employees []).
  intros j x Hx. destruct j; discriminate.
Qed.

Lemma pareto_front_member_not_dominated_by_earlier_witness :
  dominatedByFront [2]
    (firstn 1 (paretoFront [juniorEmployee; seniorEmployee] mediumActivity
                 [experienceObjective])) = false.
Proof.
  apply (pareto_front_member_not_dominated_by_earlier _ mediumActivity
           [experienceObjective] [juniorEmployee; seniorEmployee] 1
           (FrontEntry.mk seniorEmployee [2])).
  reflexivity.
Defined.

(** X17: whatever [isDominated] computes, handing more employees to the
    optimisation never removes a member: the front of a list of employees
    is a prefix of the front of any extension of that list. *)
Theorem pareto_front_only_grows
    (E : Type) (isDominated : list Q -> list (FrontEntry.t E) -> bool)
    (activity : Activity.t) (objectives : list (Objective.t E))
    (first later : list E) :
  exists added,
    multiObjectiveOptimize isDominated (first ++ later) activity objectives
    = multiObjectiveOptimize isDominated first activity objectives ++ added.
Proof.
  unfold multiObjectiveOptimize. rewrite multiObjectiveLoop_app.
  apply multiObjectiveLoop_extends.
Qed.

(** ** Strategies *)

Section RankingFacts.

Variable E : Type.
Variable keep : E -> bool.
Variable scoreOf : E -> Q.

Lemma byScoreDescending_le (a b : Scored.t E) :
  byScoreDescending a b <= 0 <-> scoreDescending a b.
Proof. unfold byScoreDescending, scoreDescending. split; intro; lra. Qed.

(** What [filter], [map] and [sort] by descending score give together. *)
Lemma ranked_by_score (employees : list E) :
  let kept := map (fun emp => Scored.mk emp (scoreOf emp))
                  (filter keep employees) in
  let ranked := sort byScoreDescending kept in
  Permutation kept ranked
  /\ StronglySorted scoreDescending ranked
  /\ Forall (fun s => In (Scored.employee s) employees
                      /\ keep (Scored.employee s) = true
                      /\ Scored.score s = scoreOf (Scored.employee s)) ranked.
Proof.
  intros kept ranked.
  assert (Hp : Permutation kept ranked) by apply sort_perm.
  split; [exact Hp|]. split.
  - apply (StronglySorted_equiv (fun a b => byScoreDescending a b <= 0)
             scoreDescending _ byScoreDescending_le).
    apply sort_sorted.
    + intros a b c. unfold byScoreDescending. intros; lra.
    + intros a b. unfold byScoreDescending.
      destruct (Qlt_le_dec (Scored.score a) (Scored.score b));
        [right | left]; lra.
  - eapply Permutation_Forall; [exact Hp|].
    unfold kept. apply Forall_map. apply Forall_forall.
    intros emp Hin. apply filter_In in Hin as [Hin Hk]. simpl. auto.
Qed.

End RankingFacts.

(** X18: whatever functions the names [meetsMinimumRequirements] and
    [calculateUpskillingScore] that it calls are bound to, the upskilling
    strategy returns exactly the employees that pass the first, each once
    and paired with the score the second gives, ordered by descending
    score. *)
Theorem upskilling_ranks_eligible_by_score
    (E : Type) (meetsMinimumRequirements : E -> Activity.t -> bool)
    (calculateUpskillingScore : E -> Activity.t -> Q)
    (employees : list E) (activity : Activity.t) :
  let ranked :=
    UpskillingStrategy.optimize meetsMinimumRequirements
      calculateUpskillingScore employees activity in
  Permutation
    (map (fun emp => Scored.mk emp (calculateUpskillingScore emp activity))
       (filter (fun emp => meetsMinimumRequirements emp activity) employees))
    ranked
  /\ StronglySorted scoreDescending ranked
  /\ Forall (fun s => In (Scored.employee s) employees
                      /\ meetsMinimumRequirements (Scored.employee s) activity
                         = true
                      /\ Scored.score s
                         = calculateUpskillingScore (Scored.employee s)
                             activity)
       ranked.
Proof.
  intros ranked.
  apply (ranked_by_score E
           (fun emp => meetsMinimumRequirements emp activity)
           (fun emp => calculateUpskillingScore emp activity) employees).
Qed.

(** X19: whatever functions the names [meetsRequirements] and
    [calculateExpertiseScore] that it calls are bound to, the expertise
    strategy returns exactly the employees that pass the first, each once
    and paired with the score the second gives, ordered by descending
    score. *)
Theorem expertise_ranks_eligible_by_score
    (E : Type) (meetsRequirements : E -> Activity.t -> bool)
    (calculateExpertiseScore : E -> Activity.t -> Q)
    (employees : list E) (activity : Activity.t) :
  let ranked :=
    ExpertiseStrategy.optimize meetsRequirements calculateExpertiseScore
      employees activity in
  Permutation
    (map (fun emp => Scored.mk emp (calculateExpertiseScore emp activity))
       (filter (fun emp => meetsRequirements emp activity) employees))
    ranked
  /\ StronglySorted scoreDescending ranked
  /\ Forall (fun s => In (Scored.employee s) employees
                      /\ meetsRequirements (Scored.employee s) activity = true
                      /\ Scored.score s
                         = calculateExpertiseScore (Scored.employee s)
                             activity)
       ranked.
Proof.
  intros ranked.
  apply (ranked_by_score E (fun emp => meetsRequirements emp activity)
           (fun emp => calculateExpertiseScore emp activity) employees).
Qed.

(** * Properties of the evaluation module's score update *)

(** The value before clamping. *)
Lemma calculateNewScore_cases (c r p : Q) :
  (80 < c
   /\ calculateNewScore c r p
      == Qmax 0 (Qmin 100 (c + ((r - 3) * 5 + (p - 3) * 3) * 0.5)))
  \/ (c <= 80
      /\ calculateNewScore c r p
         == Qmax 0 (Qmin 100 (c + (r - 3) * 5 + (p - 3) * 3))).
Proof.
  unfold calculateNewScore. destruct (Qltb 80 c) eqn:E.
  - left. apply Qltb_lt in E. split; [exact E | reflexivity].
  - right. split; [|reflexivity].
    destruct (Qlt_le_dec 80 c) as [H | H]; [|exact H].
    apply Qltb_lt in H. congruence.
Qed.

Lemma clamp_0_100_id (x : Q) :
  0 <= x -> x <= 100 -> Qmax 0 (Qmin 100 x) == x.
Proof.
  intros H0 H1. rewrite (Q.min_r 100 x H1). apply Q.max_r. exact H0.
Qed.

Lemma clamp_0_100_bounds (x : Q) :
  0 <= Qmax 0 (Qmin 100 x) /\ Qmax 0 (Qmin 100 x) <= 100.
Proof.
  split; [apply Q.le_max_l|].
  apply Q.max_lub; [lra | apply Q.le_min_l].
Qed.

Lemma clamp_0_100_mono (x y : Q) :
  x <= y -> Qmax 0 (Qmin 100 x) <= Qmax 0 (Qmin 100 y).
Proof.
  intro H. apply Q.max_le_compat_l. apply Q.min_le_compat_l. exact H.
Qed.

(** X21: the updated score always lies between 0 and 100, whatever the
    current score and the ratings are. *)
Theorem new_score_within_0_100
    (currentScore overallRating skillPerformance : Q) :
  0 <= calculateNewScore currentScore overallRating skillPerformance
  /\ calculateNewScore currentScore overallRating skillPerformance <= 100.
Proof.
  unfold calculateNewScore. apply clamp_0_100_bounds.
Qed.

(** X22: neutral ratings (3 and 3) leave a score between 0 and 100 as it
    is. *)
Theorem neutral_ratings_keep_score (currentScore : Q) :
  0 <= currentScore -> currentScore <= 100 ->
  calculateNewScore currentScore 3 3 == currentScore.
Proof.
  intros H0 H1.
  destruct (calculateNewScore_cases currentScore 3 3) as [[_ ->] | [_ ->]];
    rewrite clamp_0_100_id; lra.
Qed.

Lemma neutral_ratings_keep_score_witness : calculateNewScore 85 3 3 == 85.
Proof.
  apply neutral_ratings_keep_score; discriminate.
Defined.

(** In exact arithmetic one evaluation moves a score by at most 16 points,
    and by at most 8 points above 80. *)
Lemma calculateNewScore_move_bounds
    (currentScore overallRating skillPerformance : Q) :
  0 <= currentScore -> currentScore <= 100 ->
  1 <= overallRating -> overallRating <= 5 ->
  1 <= skillPerformance -> skillPerformance <= 5 ->
  let newScore :=
    calculateNewScore currentScore overallRating skillPerformance in
  (currentScore - 16 <= newScore /\ newScore <= currentScore + 16)
  /\ (80 < currentScore ->
      currentScore - 8 <= newScore /\ newScore <= currentScore + 8).
Proof.
  intros C0 C1 R1 R5 P1 P5 newScore. subst newScore.
  destruct (calculateNewScore_cases currentScore overallRating
              skillPerformance) as [[Hc ->] | [Hc ->]].
  - set (x := currentScore
              + ((overallRating - 3) * 5 + (skillPerformance - 3) * 3) * 0.5).
    assert (Hx : currentScore - 8 <= x /\ x <= currentScore + 8)
      by (unfold x; split; lra).
    destruct Hx as [Hx0 Hx1].
    assert (L : currentScore - 8 <= Qmax 0 (Qmin 100 x)).
    { apply (Qle_trans _ (Qmin 100 x)); [|apply Q.le_max_r].
      apply Q.min_glb; lra. }
    assert (U : Qmax 0 (Qmin 100 x) <= currentScore + 8).
    { apply Q.max_lub; [lra|].
      apply (Qle_trans _ x); [apply Q.le_min_r | exact Hx1]. }
    split; [split; lra | intros _; split; assumption].
  - set (x := currentScore + (overallRating - 3) * 5
              + (skillPerformance - 3) * 3).
    assert (Hx : currentScore - 16 <= x /\ x <= currentScore + 16)
      by (unfold x; split; lra).
    destruct Hx as [Hx0 Hx1].
    assert (L : currentScore - 16 <= Qmax 0 (Qmin 100 x)).
    { apply (Qle_trans _ (Qmin 100 x)); [|apply Q.le_max_r].
      apply Q.min_glb; lra. }
    assert (U : Qmax 0 (Qmin 100 x) <= currentScore + 16).
    { apply Q.max_lub; [lra|].
      apply (Qle_trans _ x); [apply Q.le_min_r | exact Hx1]. }
    split; [split; assumption | intro; lra].
Qed.

Lemma Z_bounds_to_Q (lo z hi : Z) :
  (lo <= z <= hi)%Z -> inject_Z lo <= inject_Z z /\ inject_Z z <= inject_Z hi.
Proof. intros [H1 H2]. split; rewrite <- Zle_Qle; assumption. Qed.

Lemma clamp_half_points (z : Z) :
  Qmax 0 (Qmin 100 (inject_Z z * 0.5))
  == inject_Z (Z.max 0 (Z.min 200 z)) * 0.5.
Proof.
  destruct (Z_le_gt_dec z 0) as [H0 | H0].
  - replace (Z.max 0 (Z.min 200 z)) with 0%Z by lia.
    assert (Hq : inject_Z z <= 0)
      by (change 0 with (inject_Z 0); rewrite <- Zle_Qle; lia).
    assert (E : Qmin 100 (inject_Z z * 0.5) == inject_Z z * 0.5)
      by (apply Q.min_r; lra).
    assert (E' : Qmax 0 (inject_Z z * 0.5) == 0) by (apply Q.max_l; lra).
    rewrite E, E'. reflexivity.
  - destruct (Z_le_gt_dec z 200) as [H1 | H1].
    + replace (Z.max 0 (Z.min 200 z)) with z by lia.
      assert (Hq0 : 0 <= inject_Z z)
        by (change 0 with (inject_Z 0); rewrite <- Zle_Qle; lia).
      assert (Hq1 : inject_Z z <= 200)
        by (change 200 with (inject_Z 200); rewrite <- Zle_Qle; lia).
      assert (E : Qmin 100 (inject_Z z * 0.5) == inject_Z z * 0.5)
        by (apply Q.min_r; lra).
      assert (E' : Qmax 0 (inject_Z z * 0.5) == inject_Z z * 0.5)
        by (apply Q.max_r; lra).
      rewrite E, E'. reflexivity.
    + replace (Z.max 0 (Z.min 200 z)) with 200%Z by lia.
      assert (Hq : 200 <= inject_Z z)
        by (change 200 with (inject_Z 200); rewrite <- Zle_Qle; lia).
      assert (E : Qmin 100 (inject_Z z * 0.5) == 100)
        by (apply Q.min_l; lra).
      rewrite E. reflexivity.
Qed.

(** For a score of [halfPoints] halves and whole ratings the updated score
    is again a whole number of halves. *)
Lemma calculateNewScore_half_points
    (halfPoints overallRating skillPerformance : Z) :
  exists newHalfPoints,
    (0 <= newHalfPoints <= 200)%Z
    /\ calculateNewScore (inject_Z halfPoints * 0.5) (inject_Z overallRating)
         (inject_Z skillPerformance)
       == inject_Z newHalfPoints * 0.5.
Proof.
  destruct (calculateNewScore_cases (inject_Z halfPoints * 0.5)
              (inject_Z overallRating) (inject_Z skillPerformance))
    as [[_ E] | [_ E]].
  - exists (Z.max 0 (Z.min 200
              (halfPoints + ((overallRating - 3) * 5
                             + (skillPerformance - 3) * 3)))).
    split; [lia|]. rewrite E, <- clamp_half_points.
    apply Qle_antisym; apply clamp_0_100_mono;
      rewrite !inject_Z_plus, !inject_Z_mult; unfold Z.sub;
      rewrite !inject_Z_plus, !inject_Z_opp; unfold inject_Z; lra.
  - exists (Z.max 0 (Z.min 200
              (halfPoints + 2 * ((overallRating - 3) * 5
                                 + (skillPerformance - 3) * 3)))).
    split; [lia|]. rewrite E, <- clamp_half_points.
    apply Qle_antisym; apply clamp_0_100_mono;
      rewrite !inject_Z_plus, !inject_Z_mult; unfold Z.sub;
      rewrite !inject_Z_plus, !inject_Z_mult, !inject_Z_plus, !inject_Z_opp;
      unfold inject_Z; lra.
Qed.

(** X23: for a current score between 0 and 100 that is a multiple of one
    half and whole ratings from 1 to 5 (values on which the arithmetic of
    the code is exact), one evaluation moves the score by at most 16
    points, by at most 8 points once the score is above 80, and the updated
    score is again a multiple of one half between 0 and 100. *)
Theorem new_score_moves_at_most_16
    (halfPoints overallRating skillPerformance : Z) :
  (0 <= halfPoints <= 200)%Z ->
  (1 <= overallRating <= 5)%Z ->
  (1 <= skillPerformance <= 5)%Z ->
  let currentScore := inject_Z halfPoints * 0.5 in
  let newScore :=
    calculateNewScore currentScore (inject_Z overallRating)
      (inject_Z skillPerformance) in
  (currentScore - 16 <= newScore /\ newScore <= currentScore + 16)
  /\ (80 < currentScore ->
      currentScore - 8 <= newScore /\ newScore <= currentScore + 8)
  /\ exists newHalfPoints,
       (0 <= newHalfPoints <= 200)%Z
       /\ newScore == inject_Z newHalfPoints * 0.5.
Proof.
  intros Hk Hr Hp currentScore newScore.
  apply Z_bounds_to_Q in Hk as [K0 K1].
  apply Z_bounds_to_Q in Hr as [R1 R5].
  apply Z_bounds_to_Q in Hp as [P1 P5].
  destruct (calculateNewScore_move_bounds currentScore
              (inject_Z overallRating) (inject_Z skillPerformance))
    as [H16 H8]; try assumption.
  - unfold currentScore. change (inject_Z 0) with 0 in K0. lra.
  - unfold currentScore. change (inject_Z 200) with 200 in K1. lra.
  - split; [exact H16|]. split; [exact H8|].
    apply calculateNewScore_half_points.
Qed.

Lemma new_score_moves_at_most_16_witness :
  (25 - 16 <= calculateNewScore (inject_Z 50 * 0.5) (inject_Z 5) (inject_Z 5)
   /\ calculateNewScore (inject_Z 50 * 0.5) (inject_Z 5) (inject_Z 5)
      <= 25 + 16)
  /\ (90 - 8 <= calculateNewScore (inject_Z 180 * 0.5) (inject_Z 1) (inject_Z 1)
      /\ calculateNewScore (inject_Z 180 * 0.5) (inject_Z 1) (inject_Z 1)
         <= 90 + 8).
Proof.
  destruct (new_score_moves_at_most_16 50 5 5) as [H25 _]; try lia.
  destruct (new_score_moves_at_most_16 180 1 1) as (_ & H90 & _); try lia.
  split.
  - destruct H25 as [Ha Hb]. split.
    + apply (Qle_trans _ (inject_Z 50 * 0.5 - 16)); [discriminate | exact Ha].
    + apply (Qle_trans _ (inject_Z 50 * 0.5 + 16)); [exact Hb | discriminate].
  - destruct H90 as [Ha Hb]; [reflexivity|]. split.
    + apply (Qle_trans _ (inject_Z 180 * 0.5 - 8)); [discriminate | exact Ha].
    + apply (Qle_trans _ (inject_Z 180 * 0.5 + 8)); [exact Hb | discriminate].
Defined.

(** X24: at a given current score, better ratings never give a lower
    updated score. *)
Theorem new_score_monotone_in_ratings (currentScore r1 r2 p1 p2 : Q) :
  r1 <= r2 -> p1 <= p2 ->
  calculateNewScore currentScore r1 p1 <= calculateNewScore currentScore r2 p2.
Proof.
  intros Hr Hp.
  destruct (calculateNewScore_cases currentScore r1 p1) as [[Hc ->] | [Hc ->]];
    destruct (calculateNewScore_cases currentScore r2 p2)
      as [[Hc' ->] | [Hc' ->]];
    try lra; apply clamp_0_100_mono; lra.
Qed.

Lemma new_score_monotone_in_ratings_witness :
  calculateNewScore 70 2 3 <= calculateNewScore 70 4 3.
Proof.
  apply new_score_monotone_in_ratings; discriminate.
Defined.



(** ** Evaluations feeding the progression potential *)

Lemma fromEvaluation_improvement (ev : SkillEvolution.t) :
  fromEvaluation ev -> -16 <= improvement ev /\ improvement ev <= 16.
Proof.
  intros (s & k & r & p & Hk & Hs & Hr & Hp & ->).
  unfold improvement, recordedEvolution. simpl.
  apply Z_bounds_to_Q in Hk as [K0 K1].
  apply Z_bounds_to_Q in Hr as [R1 R5].
  apply Z_bounds_to_Q in Hp as [P1 P5].
  change (inject_Z 0) with 0 in K0. change (inject_Z 200) with 200 in K1.
  destruct (calculateNewScore_move_bounds (EmployeeSkill.score s)
              (inject_Z r) (inject_Z p)) as [[H0 H1] _];
    try assumption; try lra.
Qed.

(** X26: when every recorded evolution comes from an evaluation of a score
    in [0, 100] that is a multiple of one half, with whole ratings from 1
    to 5, the progression potential stays between 18 and 82: the clamp to
    [0, 100] is never reached. *)
Theorem progression_of_evaluations_between_18_and_82
    (skillEvolution : list SkillEvolution.t) :
  Forall fromEvaluation skillEvolution ->
  18 <= calculateProgressionPotential skillEvolution
  /\ calculateProgressionPotential skillEvolution <= 82.
Proof.
  intro H. destruct skillEvolution as [|e0 l0];
    [split; vm_compute; discriminate|].
  split.
  - apply (Qle_trans _ (Qmin (Qmax (50 + -16 * 2) 0) 100));
      [vm_compute; discriminate|].
    apply progression_lower; [discriminate|].
    eapply Forall_impl; [|exact H]. intros ev Hev.
    apply fromEvaluation_improvement in Hev. tauto.
  - apply (Qle_trans _ (Qmin (Qmax (50 + 16 * 2) 0) 100));
      [|vm_compute; discriminate].
    apply progression_upper; [discriminate|].
    eapply Forall_impl; [|exact H]. intros ev Hev.
    apply fromEvaluation_improvement in Hev. tauto.
Qed.

Lemma progression_of_evaluations_between_18_and_82_witness :
  18 <= calculateProgressionPotential
          [recordedEvolution (EmployeeSkill.mk "A" LOW 20) 5 5;
           recordedEvolution (EmployeeSkill.mk "A" MEDIUM 36) 5 4]
  /\ calculateProgressionPotential
       [recordedEvolution (EmployeeSkill.mk "A" LOW 20) 5 5;
        recordedEvolution (EmployeeSkill.mk "A" MEDIUM 36) 5 4] <= 82.
Proof.
  apply progression_of_evaluations_between_18_and_82.
  apply Forall_cons; [|apply Forall_cons; [|apply Forall_nil]].
  - exists (EmployeeSkill.mk "A" LOW 20), 40%Z, 5%Z, 5%Z.
    split; [lia|]. split; [reflexivity|]. split; [lia|]. split; [lia|].
    reflexivity.
  - exists (EmployeeSkill.mk "A" MEDIUM 36), 72%Z, 5%Z, 4%Z.
    split; [lia|]. split; [reflexivity|]. split; [lia|]. split; [lia|].
    reflexivity.
Defined.

(** * Properties of the users service *)

Lemma findById_Some users id u :
  UsersService.findById users id = Some u -> In u users /\ User._id u = id.
Proof.
  intro H. apply find_some in H as [Hin He].
  apply String.eqb_eq in He. auto.
Qed.


Lemma roleIn_employee_manager (u : User.t) :
  UsersService.roleIn ["EMPLOYEE"; "MANAGER"]%string u = true
  <-> User.role u = "EMPLOYEE"%string \/ User.role u = "MANAGER"%string.
Proof.
  unfold UsersService.roleIn. simpl.
  rewrite !orb_true_iff, !String.eqb_eq. intuition discriminate.
Qed.

(** X27: what findAll shows depends on the caller's role: everything for HR
    and for a caller without an id or a role (absent or empty); for a
    manager exactly the users whose role is EMPLOYEE or MANAGER, never an
    HR user; for an employee at most the caller's own document; nothing
    for any other role. *)
Theorem findAll_visibility_by_role
    (users : list User.t) (currentUserId currentUserRole : option string) :
  let seen := UsersService.findAll users currentUserId currentUserRole in
  (falsy currentUserId = true \/ falsy currentUserRole = true
   \/ currentUserRole = Some "HR"%string ->
   seen = map UsersService.selectWithoutPassword users)
  /\ (falsy currentUserId = false ->
      currentUserRole = Some "MANAGER"%string ->
      Forall (fun u => User.role u <> "HR"%string) seen
      /\ forall u, In u users ->
           (In (UsersService.selectWithoutPassword u) seen
            <-> User.role u = "EMPLOYEE"%string
                \/ User.role u = "MANAGER"%string))
  /\ (falsy currentUserId = false ->
      currentUserRole = Some "EMPLOYEE"%string ->
      (length seen <= 1)%nat
      /\ Forall (fun u => Some (User._id u) = currentUserId) seen)
  /\ (falsy currentUserId = false -> falsy currentUserRole = false ->
      currentUserRole <> Some "HR"%string ->
      currentUserRole <> Some "MANAGER"%string ->
      currentUserRole <> Some "EMPLOYEE"%string ->
      seen = []).
Proof.
  intro seen. subst seen. unfold UsersService.findAll.
  split; [|split; [|split]].
  - intros [H | [H | H]].
    + rewrite H. reflexivity.
    + rewrite H, orb_true_r. reflexivity.
    + subst currentUserRole. destruct (falsy currentUserId); reflexivity.
  - intros Hid ->. rewrite Hid. simpl. split.
    + apply Forall_map. apply Forall_forall. intros u Hu.
      apply filter_In in Hu as [_ Hr].
      apply roleIn_employee_manager in Hr. simpl.
      destruct Hr as [-> | ->]; discriminate.
    + intros u Hin. split.
      * intro Hs. apply in_map_iff in Hs as (v & Hv & Hf).
        apply filter_In in Hf as [_ Hr].
        apply roleIn_employee_manager in Hr.
        assert (User.role u = User.role v)
          by (apply (f_equal User.role) in Hv; simpl in Hv; congruence).
        congruence.
      * intro Hr. apply in_map. apply filter_In. split; [exact Hin|].
        apply roleIn_employee_manager. exact Hr.
  - intros Hid ->. rewrite Hid. simpl.
    destruct currentUserId as [id|]; [|discriminate]. simpl.
    destruct (UsersService.findById users id) as [u|] eqn:F; simpl.
    + apply findById_Some in F as [_ <-].
      split; [lia | repeat constructor].
    + split; [lia | constructor].
  - intros Hid Hrole Hhr Hm He. rewrite Hid, Hrole. simpl.
    destruct currentUserRole as [role|]; [|discriminate]. simpl.
    destruct (String.eqb role "HR") eqn:E1;
      [apply String.eqb_eq in E1; congruence|].
    destruct (String.eqb role "MANAGER") eqn:E2;
      [apply String.eqb_eq in E2; congruence|].
    destruct (String.eqb role "EMPLOYEE") eqn:E3;
      [apply String.eqb_eq in E3; congruence|].
    reflexivity.
Qed.

Lemma findAll_visibility_by_role_witness :
  UsersService.findAll sampleUsers (Some "u2"%string) (Some EmptyString)
  = map UsersService.selectWithoutPassword sampleUsers
  /\ Forall (fun u => User.role u <> "HR"%string)
       (UsersService.findAll sampleUsers (Some "u2"%string)
          (Some "MANAGER"%string))
  /\ (length (UsersService.findAll sampleUsers (Some "u3"%string)
                (Some "EMPLOYEE"%string)) <= 1)%nat
  /\ UsersService.findAll sampleUsers (Some "u3"%string)
       (Some "GUEST"%string) = [].
Proof.
  destruct (findAll_visibility_by_role sampleUsers (Some "u2"%string)
              (Some EmptyString)) as [Hall _].
  destruct (findAll_visibility_by_role sampleUsers (Some "u2"%string)
              (Some "MANAGER"%string)) as (_ & Hm & _).
  destruct (findAll_visibility_by_role sampleUsers (Some "u3"%string)
              (Some "EMPLOYEE"%string)) as (_ & _ & He & _).
  destruct (findAll_visibility_by_role sampleUsers (Some "u3"%string)
              (Some "GUEST"%string)) as (_ & _ & _ & Hg).
  split; [apply Hall; right; left; reflexivity|].
  split; [apply Hm; reflexivity|].
  split; [apply He; reflexivity|].
  apply Hg; try reflexivity; discriminate.
Defined.


Lemma NoDup_map_snoc {A B : Type} (f : A -> B) (l : list A) (x : A) :
  NoDup (map f l) -> (forall y, In y l -> f y <> f x) ->
  NoDup (map f (l ++ [x])).
Proof.
  intros Hn Hx. rewrite map_app. simpl.
  apply NoDup_app; [exact Hn | repeat constructor; intros [] | ].
  - intros b Hb [<- | []]. apply in_map_iff in Hb as (y & Hy & Hin).
    exact (Hx y Hin Hy).
Qed.

Lemma find_snoc_new {A : Type} (p : A -> bool) (l : list A) (x : A) :
  (forall y, In y l -> p y = false) -> p x = true ->
  find p (l ++ [x]) = Some x.
Proof.
  intros Hl Hx. induction l as [|y l IH]; simpl.
  - rewrite Hx. reflexivity.
  - rewrite (Hl y) by (left; reflexivity).
    apply IH. intros z Hz. apply Hl. right. exact Hz.
Qed.

(** X29: create refuses with a conflict exactly when a stored user already
    has the e-mail address or the matricule; when it succeeds the new
    document is appended to the collection, e-mail addresses and matricules
    stay unique, and the new user is found by e-mail, by matricule and,
    under a fresh identifier, by findOne (without the password; the
    identifier Mongoose assigns casts to an ObjectId). *)
Theorem create_keeps_email_and_matricule_unique
    (schemaValidates : User.t -> bool) (castsToObjectId : string -> bool)
    (users : list User.t) (newId : string) (dto : CreateUserDto.t) :
  NoDup (map User.email users) ->
  NoDup (map User.matricule users) ->
  (forall u, In u users -> User._id u <> newId) ->
  match UsersService.create schemaValidates users newId dto with
  | inr (created, users') =>
      (forall u, In u users ->
         User.email u <> CreateUserDto.email dto
         /\ User.matricule u <> CreateUserDto.matricule dto)
      /\ created = UsersService.newDocument newId dto
      /\ users' = users ++ [created]
      /\ NoDup (map User.email users')
      /\ NoDup (map User.matricule users')
      /\ UsersService.findByEmail users' (CreateUserDto.email dto)
         = Some created
      /\ UsersService.findByMatricule users' (CreateUserDto.matricule dto)
         = Some created
      /\ UsersService.findOne castsToObjectId users' newId
         = (if castsToObjectId newId
            then inr (UsersService.selectWithoutPassword created)
            else inl CastError)
  | inl (ConflictException message) =>
      message = "User with this email or matricule already exists"%string
      /\ exists u, In u users
           /\ (User.email u = CreateUserDto.email dto
               \/ User.matricule u = CreateUserDto.matricule dto)
  | inl ValidationError =>
      schemaValidates (UsersService.newDocument newId dto) = false
      /\ forall u, In u users ->
           User.email u <> CreateUserDto.email dto
           /\ User.matricule u <> CreateUserDto.matricule dto
  | inl (NotFoundException _) => False
  | inl CastError => False
  end.
Proof.
  intros He Hm Hid. unfold UsersService.create.
  destruct (find _ users) as [u|] eqn:F.
  - split; [reflexivity|]. apply find_some in F as [Hin Hp].
    exists u. split; [exact Hin|].
    apply orb_true_iff in Hp as [Hp | Hp]; apply String.eqb_eq in Hp; auto.
  - assert (Hfree : forall u, In u users ->
               User.email u <> CreateUserDto.email dto
               /\ User.matricule u <> CreateUserDto.matricule dto).
    { intros u Hin. apply (find_none _ _ F) in Hin.
      apply orb_false_iff in Hin as [H1 H2].
      apply String.eqb_neq in H1, H2. auto. }
    destruct (schemaValidates (UsersService.newDocument newId dto)) eqn:V;
      [|split; [reflexivity | exact Hfree]].
    split; [exact Hfree|]. split; [reflexivity|]. split; [reflexivity|].
    split; [|split; [|split; [|split]]].
    + apply NoDup_map_snoc; [exact He|]. intros y Hy. simpl.
      apply (Hfree y Hy).
    + apply NoDup_map_snoc; [exact Hm|]. intros y Hy. simpl.
      apply (Hfree y Hy).
    + apply find_snoc_new.
      * intros y Hy. apply String.eqb_neq. apply (Hfree y Hy).
      * simpl. apply String.eqb_refl.
    + apply find_snoc_new.
      * intros y Hy. apply String.eqb_neq. apply (Hfree y Hy).
      * simpl. apply String.eqb_refl.
    + unfold UsersService.findOne, UsersService.findById.
      destruct (castsToObjectId newId); [|reflexivity].
      rewrite find_snoc_new; [reflexivity | |].
      * intros y Hy. apply String.eqb_neq. apply (Hid y Hy).
      * simpl. apply String.eqb_refl.
Qed.

Lemma create_keeps_email_and_matricule_unique_witness :
  match UsersService.create (fun _ => true) storedUsers
          "64b0c0ffee0000000000a004"
          (CreateUserDto.mk "n" "M4" "1" "new@x" "password" 0 None None
             None None) with
  | inr (created, users') =>
      NoDup (map User.email users') /\ NoDup (map User.matricule users')
      /\ UsersService.findOne hexObjectId users' "64b0c0ffee0000000000a004"
         = inr (UsersService.selectWithoutPassword created)
  | inl _ => False
  end.
Proof.
  pose proof (create_keeps_email_and_matricule_unique (fun _ => true)
                hexObjectId storedUsers "64b0c0ffee0000000000a004"
                (CreateUserDto.mk "n" "M4" "1" "new@x" "password" 0 None None
                   None None)) as H.
  simpl in H |- *.
  destruct H as (_ & _ & _ & H1 & H2 & _ & _ & H3).
  - repeat constructor; simpl; intuition discriminate.
  - repeat constructor; simpl; intuition discriminate.
  - intros u [<- | [<- | [<- | []]]]; discriminate.
  - split; [exact H1|]. split; [exact H2 | exact H3].
Defined.





Example malformed_identifier_raises_cast_error :
  UsersService.findOne hexObjectId storedUsers "abc" = inl CastError
  /\ UsersService.remove hexObjectId storedUsers "abc" = inl CastError.
Proof. split; reflexivity. Qed.
